(** * json2msgpack: the msgpack bin-array framing codec and its pipelines

    A shallow embedding of the Go sources of json2msgpack (the converter
    itself, msgpackParseBench/msgpackParseBench.go and
    jsonParseBench/jsonParseBench.go) and the properties of the frame codec
    and of the two streaming loops. [writeMsgpackBinArrayHeader] is the same
    text in the three programs, [DecodeMsgpackBinArrayHeader] the same text
    in the two benchmarks; each is embedded once.

    Conventions of the embedding.
    - A Go [[]byte] is a [list byte]; its capacity is taken equal to its
      length, the least capacity a slice can have, so an access that is in
      bounds here is in bounds in Go.
    - Go's [int] is 64 bits wide: the converter compares an [int] with the
      constant 4294967295, which only compiles where [int] has 64 bits.
    - Fixed-width integers are [Z] with the wrap-around of each conversion
      written out ([uint8], [uint16], [uint32], [int]).
    - A run-time panic (index out of range, or an explicit [panic(...)]) is a
      value of [outcome]; it is never confused with a returned [error]. *)

From Stdlib Require Import ZArith List Lia Bool.
From Stdlib Require String.
From coqutil Require Import Byte.
Import ListNotations.
Import String.StringSyntax.
Delimit Scope string_scope with string.
Local Open Scope Z_scope.

(** ** Machine integers *)

Definition wrapU (w z : Z) : Z := z mod 2 ^ w.
Definition wrapS (w z : Z) : Z := (z + 2 ^ (w - 1)) mod 2 ^ w - 2 ^ (w - 1).

Definition uint8 (z : Z) : Z := wrapU 8 z.
Definition uint16 (z : Z) : Z := wrapU 16 z.
Definition uint32 (z : Z) : Z := wrapU 32 z.
Definition int (z : Z) : Z := wrapS 64 z.
Definition int64 (z : Z) : Z := wrapS 64 z.

(** [byte(v)] on an unsigned value, as a Go byte. *)
Definition to_byte (z : Z) : byte := byte.of_Z z.

(** ** Errors, panics and the outcome of a computation *)

(** The [error] values the programs test or create. *)
Inductive error : Type :=
| EOF                          (* io.EOF *)
| ErrIO                        (* any other error of a Read or a Write *)
| ErrCodec                     (* an error of a codec Decoder or Encoder *)
| ErrTooSmall (lenp : Z).      (* "DecodeMsgpackBinArrayHeader error: p len (%d) too small" *)

Definition is_nil (e : option error) : bool :=
  match e with None => true | Some _ => false end.

Definition is_EOF (e : option error) : bool :=
  match e with Some EOF => true | _ => false end.

Inductive panic : Type :=
| IndexOutOfRange                       (* runtime error: index out of range *)
| SliceOutOfRange                       (* runtime error: slice bounds out of range *)
| DecodeErrorAt (lineNum : Z)           (* "at line %d of input '%s', Decode error" *)
| EncodeErrorAt (lineNum : Z)           (* "... Encoding error trying to encode" *)
| TooLongAt (lineNum blen : Z)          (* "json message at line %d ... is too long at %d bytes" *)
| HeaderWriteErrorAt (lineNum blen : Z) (* "... call to writeMsgpackBinArrayHeader ... produced error" *)
| CopyErrorAt (lineNum : Z)             (* "... copying to output '%s' produced error" *)
| UnexpectedType.                       (* "unexpected %T with val = ..." *)

Inductive outcome (A : Type) : Type :=
| Done (a : A)
| Panicked (p : panic).
Arguments Done {A} a.
Arguments Panicked {A} p.

Definition obind {A B} (m : outcome A) (k : A -> outcome B) : outcome B :=
  match m with
  | Done a => k a
  | Panicked p => Panicked p
  end.

Declare Scope go_scope.
Delimit Scope go_scope with go.
Notation "x <- m ;; k" := (obind m (fun x => k))
  (at level 61, m at next level, right associativity) : go_scope.
Notation "' pat <- m ;; k" := (obind m (fun x => match x with pat => k end))
  (at level 61, pat pattern, m at next level, right associativity) : go_scope.

(** ** Slices *)

Module Slice.

(** [p[i]] *)
Definition index (p : list byte) (i : nat) : outcome byte :=
  match nth_error p i with
  | Some b => Done b
  | None => Panicked IndexOutOfRange
  end.

(** [p[lo:hi]] *)
Definition sub (p : list byte) (lo hi : nat) : outcome (list byte) :=
  if (lo <=? hi)%nat && (hi <=? length p)%nat
  then Done (firstn (hi - lo) (skipn lo p))
  else Panicked SliceOutOfRange.

(** [p[i] = b] *)
Definition store (p : list byte) (i : nat) (b : byte) : outcome (list byte) :=
  if (i <? length p)%nat
  then Done (firstn i p ++ b :: skipn (S i) p)
  else Panicked IndexOutOfRange.

(** [p[lo:]] *)
Definition from (p : list byte) (lo : Z) : outcome (list byte) :=
  if (0 <=? lo) && (lo <=? Z.of_nat (length p))
  then Done (skipn (Z.to_nat lo) p)
  else Panicked SliceOutOfRange.

(** The effect on [p] of writes made through the alias [p[lo:hi]]:
    [s] is the content of that window after the writes. *)
Definition writeback (p : list byte) (lo : nat) (s : list byte) : list byte :=
  firstn lo p ++ s ++ skipn (lo + length s) p.

End Slice.

(** ** encoding/binary, big endian (Go standard library) *)

Module BigEndian.
Local Open Scope go_scope.

(** [_ = b[1]; b[0] = byte(v >> 8); b[1] = byte(v)] *)
Definition PutUint16 (b : list byte) (v : Z) : outcome (list byte) :=
  _ <- Slice.index b 1 ;;
  b <- Slice.store b 0 (to_byte (Z.shiftr v 8)) ;;
  Slice.store b 1 (to_byte v).

(** [_ = b[3]; b[0] = byte(v >> 24); b[1] = byte(v >> 16);
    b[2] = byte(v >> 8); b[3] = byte(v)] *)
Definition PutUint32 (b : list byte) (v : Z) : outcome (list byte) :=
  _ <- Slice.index b 3 ;;
  b <- Slice.store b 0 (to_byte (Z.shiftr v 24)) ;;
  b <- Slice.store b 1 (to_byte (Z.shiftr v 16)) ;;
  b <- Slice.store b 2 (to_byte (Z.shiftr v 8)) ;;
  Slice.store b 3 (to_byte v).

(** [_ = b[1]; return uint16(b[1]) | uint16(b[0])<<8] *)
Definition Uint16 (b : list byte) : outcome Z :=
  _ <- Slice.index b 1 ;;
  b1 <- Slice.index b 1 ;;
  b0 <- Slice.index b 0 ;;
  Done (Z.lor (uint16 (byte.unsigned b1))
              (uint16 (Z.shiftl (uint16 (byte.unsigned b0)) 8))).

(** [_ = b[3];
    return uint32(b[3]) | uint32(b[2])<<8 | uint32(b[1])<<16 | uint32(b[0])<<24] *)
Definition Uint32 (b : list byte) : outcome Z :=
  _ <- Slice.index b 3 ;;
  b3 <- Slice.index b 3 ;;
  b2 <- Slice.index b 2 ;;
  b1 <- Slice.index b 1 ;;
  b0 <- Slice.index b 0 ;;
  Done (Z.lor (Z.lor (Z.lor (uint32 (byte.unsigned b3))
                            (uint32 (Z.shiftl (uint32 (byte.unsigned b2)) 8)))
                     (uint32 (Z.shiftl (uint32 (byte.unsigned b1)) 16)))
              (uint32 (Z.shiftl (uint32 (byte.unsigned b0)) 24))).

End BigEndian.

(** ** The frame codec *)

Module Frame.
Local Open Scope go_scope.

Definition msgpackBin8 : byte := Byte.xc4.
Definition msgpackBin16 : byte := Byte.xc5.
Definition msgpackBin32 : byte := Byte.xc6.

(** The body of [writeMsgpackBinArrayHeader] up to its single call of
    [w.Write]: the slice [by[:nBytesAdded]] handed to the writer.
    [l] is the [uint32] argument. *)
Definition binArrayHeader (l : Z) : outcome (list byte) :=
  let by_ := repeat Byte.x00 8 in
  if l <? 256 then
    by_ <- Slice.store by_ 0 msgpackBin8 ;;
    by_ <- Slice.store by_ 1 (to_byte (uint8 l)) ;;
    Slice.sub by_ 0 2
  else if l <? 65536 then
    by_ <- Slice.store by_ 0 msgpackBin16 ;;
    s <- Slice.sub by_ 1 3 ;;
    s <- BigEndian.PutUint16 s (uint16 l) ;;
    Slice.sub (Slice.writeback by_ 1 s) 0 3
  else
    by_ <- Slice.store by_ 0 msgpackBin32 ;;
    s <- Slice.sub by_ 1 5 ;;
    s <- BigEndian.PutUint32 s l ;;
    Slice.sub (Slice.writeback by_ 1 s) 0 5.

(** What [DecodeMsgpackBinArrayHeader] returns: its four named results;
    [err] is [None] for a nil error. *)
Record header : Type := mkHeader {
  headerSize : Z;
  payloadSize : Z;
  totalFrameSize : Z;
  err : option error
}.

(** [err = fmt.Errorf(...); return] with the other named results still
    at their zero value. *)
Definition tooSmall (lenp : Z) : header :=
  mkHeader 0 0 0 (Some (ErrTooSmall lenp)).

(** The tail of the function: [totalFrameSize = headerSize + payloadSize;
    return]. *)
Definition finish (hs ps : Z) : header := mkHeader hs ps (int (hs + ps)) None.

Definition DecodeMsgpackBinArrayHeader (p : list byte) : outcome header :=
  let lenp := Z.of_nat (length p) in
  tag <- Slice.index p 0 ;;
  if Byte.eqb tag msgpackBin8 then
    if lenp <? 2 then Done (tooSmall lenp)
    else
      b <- Slice.index p 1 ;;
      Done (finish 2 (int (byte.unsigned b)))
  else if Byte.eqb tag msgpackBin16 then
    if lenp <? 3 then Done (tooSmall lenp)
    else
      s <- Slice.sub p 1 3 ;;
      v <- BigEndian.Uint16 s ;;
      Done (finish 3 (int v))
  else if Byte.eqb tag msgpackBin32 then
    if lenp <? 5 then Done (tooSmall lenp)
    else
      s <- Slice.sub p 1 5 ;;
      v <- BigEndian.Uint32 s ;;
      Done (finish 5 (int v))
  else
    (* the switch has no default case: both sizes keep their zero value *)
    Done (finish 0 0).

End Frame.

(** ** Big-endian length fields, as the format describes them *)

(** The [n] bytes of [L], most significant first. *)
Fixpoint be_bytes (n : nat) (L : Z) : list byte :=
  match n with
  | O => []
  | S k => to_byte (L / 256 ^ Z.of_nat k) :: be_bytes k L
  end.

(** The unsigned number a byte string denotes, most significant byte first. *)
Definition be_value (bs : list byte) : Z :=
  fold_left (fun acc b => acc * 256 + byte.unsigned b) bs 0.

(** Number of length-field bytes and tag of the variant for length [L]. *)
Definition field_width (L : Z) : nat :=
  if L <? 256 then 1%nat else if L <? 65536 then 2%nat else 4%nat.

Definition variant_tag (L : Z) : byte :=
  if L <? 256 then Byte.xc4 else if L <? 65536 then Byte.xc5 else Byte.xc6.

(** The bytes [jsonToMsgp] writes for a payload [P] when no write fails:
    the header for [uint32(len(P))], then [P]. *)
Definition frame (P : list byte) : list byte :=
  match Frame.binArrayHeader (uint32 (Z.of_nat (length P))) with
  | Done hdr => hdr ++ P
  | Panicked _ => []
  end.

(** ** Streams shared by the programs *)

(** How a process ends: [os.Exit(code)], or an unrecovered panic, which the
    Go runtime turns into exit status 2 after printing the panic value. *)
Inductive exit : Type :=
| Exit (code : Z)
| Crash (p : panic).

Definition exit_code (e : exit) : Z :=
  match e with
  | Exit code => code
  | Crash _ => 2
  end.

(** A [bufio.Reader] over the input file: the bytes it will still deliver,
    and the error the underlying reads end with once those are exhausted
    ([EOF] for a file read to its end, another error for a failed read). *)
Record reader : Type := mkReader {
  pending : list byte;
  ending : error
}.

(** The prefix of [l] up to and including the first [delim], and what
    follows it; [None] when [l] has no [delim]. *)
Fixpoint cut (delim : byte) (l : list byte) : option (list byte * list byte) :=
  match l with
  | [] => None
  | b :: l' =>
      if Byte.eqb b delim then Some ([b], l')
      else match cut delim l' with
           | Some (line, rest) => Some (b :: line, rest)
           | None => None
           end
  end.

(** [bufio.Reader.ReadBytes(delim)]: the data up to and including the
    delimiter with a nil error, or, when an error comes before a delimiter,
    the data read before the error and the error itself. *)
Definition ReadBytes (r : reader) (delim : byte)
  : (list byte * option error) * reader :=
  match cut delim (pending r) with
  | Some (line, rest) => ((line, None), mkReader rest (ending r))
  | None => ((pending r, Some (ending r)), mkReader [] (ending r))
  end.

Definition newline : byte := Byte.x0a.

(** ** json2msgpack: the encode direction *)

Module Json2Msgpack.
Section Pipeline.

(** The collaborators from github.com/ugorji/go/codec. *)
Variable iface : Type.
(** [codec.NewDecoderBytes(js, jh).Decode(&iface)]: the decoded value, or
    [None] for a non-nil error. *)
Variable jsonDecode : list byte -> option iface.
(** [codec.NewEncoder(buf, &mh).Encode(iface)]: the bytes it appends to
    [buf] and the error it returns. *)
Variable msgpackEncode : iface -> list byte * option error.

(** The output file. [wfault out d] tells what [cfg.Output.Write(d)] does
    once [out] has been written: [None] when all of [d] is written,
    [Some n] when the call fails after writing at most [n] bytes of [d]. *)
Variable wfault : list byte -> list byte -> option nat.

(** [cfg.Input] behind [bufIn], the bytes written to [cfg.Output] so far,
    and the content of the reused [bytes.Buffer]. *)
Record state : Type := mkState {
  input : reader;
  output : list byte;
  buf : list byte
}.

(** Computations over [state] that may panic; the state reached at a
    panic is kept, since what has been written stays written. *)
Definition M (A : Type) : Type := state -> outcome A * state.

Definition ret {A} (a : A) : M A := fun s => (Done a, s).

Definition bind {A B} (m : M A) (k : A -> M B) : M B :=
  fun s => match m s with
           | (Done a, s') => k a s'
           | (Panicked p, s') => (Panicked p, s')
           end.

Definition throw {A} (p : panic) : M A := fun s => (Panicked p, s).

Definition lift {A} (o : outcome A) : M A := fun s => (o, s).

Declare Scope m_scope.
Notation "x <- m ;; k" := (bind m (fun x => k))
  (at level 61, m at next level, right associativity) : m_scope.
Local Open Scope m_scope.

(** [w.Write(d)] on the output file. *)
Definition Write (d : list byte) : M (option error) :=
  fun s => match wfault (output s) d with
           | None =>
               (Done None, mkState (input s) (output s ++ d) (buf s))
           | Some n =>
               (Done (Some ErrIO),
                mkState (input s) (output s ++ firstn n d) (buf s))
           end.

(** [enc.Encode(iface)] with [enc] writing into [buf]. *)
Definition Encode (v : iface) : M (option error) :=
  fun s => let '(enc, e) := msgpackEncode v in
           (Done e, mkState (input s) (output s) (buf s ++ enc)).

(** [buf.Len()] *)
Definition bufLen : M Z := fun s => (Done (Z.of_nat (length (buf s))), s).

(** [buf.Reset()] *)
Definition bufReset : M unit :=
  fun s => (Done tt, mkState (input s) (output s) []).

(** [io.Copy(cfg.Output, buf)], which is [buf.WriteTo(cfg.Output)]: one
    [Write] of the whole content when it is not empty; the bytes written
    leave the buffer. *)
Definition ioCopy : M (option error) :=
  fun s => match buf s with
           | [] => (Done None, s)
           | _ :: _ =>
               match wfault (output s) (buf s) with
               | None =>
                   (Done None, mkState (input s) (output s ++ buf s) [])
               | Some n =>
                   (Done (Some ErrIO),
                    mkState (input s) (output s ++ firstn n (buf s))
                            (skipn n (buf s)))
               end
           end.

Definition writeMsgpackBinArrayHeader (l : Z) : M (option error) :=
  hdr <- lift (Frame.binArrayHeader l) ;;
  Write hdr.

Definition jsonToMsgp (js : list byte) (lineNum : Z) : M Z :=
  match jsonDecode js with
  | None => throw (DecodeErrorAt lineNum)
  | Some v =>
      err <- Encode v ;;
      if negb (is_nil err) then throw (EncodeErrorAt lineNum) else
      blen <- bufLen ;;
      if blen >? 4294967295 then throw (TooLongAt lineNum blen) else
      err <- writeMsgpackBinArrayHeader (uint32 blen) ;;
      if negb (is_nil err) then throw (HeaderWriteErrorAt lineNum blen) else
      err <- ioCopy ;;
      if negb (is_nil err) then throw (CopyErrorAt lineNum) else
      ret 0
  end.

(** [bufIn.ReadBytes('\n')] *)
Definition readLine : M (list byte * option error) :=
  fun s => let '(res, r) := ReadBytes (input s) newline in
           (Done res, mkState r (output s) (buf s)).

(** The [for] loop of [processFile]; [fuel] bounds the number of
    iterations, [None] is returned when it runs out. *)
Fixpoint loop (fuel : nat) (lineNum : Z) (s : state) : option (outcome Z * state) :=
  match fuel with
  | O => None
  | S fuel =>
      match readLine s with
      | (Panicked p, s) => Some (Panicked p, s)
      | (Done (lastLine, err), s) =>
          if negb (is_nil err) && negb (is_EOF err) then
            Some (Done 2, s)                    (* printError(err); return 2 *)
          else if is_EOF err && (Z.of_nat (length lastLine) =? 0) then
            Some (Done 0, s)                    (* break; return 0 *)
          else
            match jsonToMsgp lastLine lineNum s with
            | (Panicked p, s) => Some (Panicked p, s)
            | (Done status, s) =>
                if status >? 0 then Some (Done status, s)
                else
                  let s := snd (bufReset s) in
                  let lineNum := int64 (lineNum + 1) in
                  if is_EOF err then Some (Done 0, s)   (* break; return 0 *)
                  else loop fuel lineNum s
            end
      end
  end.

(** [processFile(cfg)]: every iteration but the last consumes a line of
    at least one byte, so one more iteration than there are input bytes
    is always enough. *)
Definition processFile (s : state) : option (outcome Z * state) :=
  loop (S (length (pending (input s)))) 1 (mkState (input s) (output s) []).

(** [main] once the flags are parsed: [validate] is the result of
    [cfg.ValidateConfig()], [inp] and [out] the streams it opened. *)
Definition main (validate : option error) (inp : reader) (out : list byte)
  : option (exit * state) :=
  match validate with
  | Some _ => Some (Exit 1, mkState inp out [])          (* log.Fatalf *)
  | None =>
      match processFile (mkState inp out []) with
      | None => None
      | Some (Done status, s) => Some (Exit status, s)   (* os.Exit(status) *)
      | Some (Panicked p, s) => Some (Crash p, s)
      end
  end.

End Pipeline.
End Json2Msgpack.

(** *** Input text as lines *)

(** The input made of the complete lines [lines], each followed by a
    newline, and of a last span [last] that has none. *)
Definition text (lines : list (list byte)) (last : list byte) : list byte :=
  concat (map (fun l => l ++ [newline]) lines) ++ last.

(** What the successive reads of that input hand to [jsonToMsgp]: every
    complete line with its newline, then [last] unless it is empty. *)
Definition records (lines : list (list byte)) (last : list byte)
  : list (list byte) :=
  map (fun l => l ++ [newline]) lines
  ++ match last with [] => [] | _ :: _ => [last] end.

(** The record [js] converts to the payload [P]: both codec calls succeed
    and [P] is not oversize. *)
Definition converts {iface : Type} (jsonDecode : list byte -> option iface)
  (msgpackEncode : iface -> list byte * option error)
  (js P : list byte) : Prop :=
  exists v, jsonDecode js = Some v
            /\ msgpackEncode v = (P, None)
            /\ Z.of_nat (length P) <= 4294967295.

(** ** msgpackParseBench: the decode direction *)

Module MsgpackParseBench.
Section Pipeline.
Local Open Scope go_scope.

(** [codec.NewDecoderBytes(b, &h.mh).Decode(&s)]: the error it returns. *)
Variable decodeSlice : list byte -> option error.

(** The dynamic type of [r] after a successful [decoder.Decode(&r)]: a
    [[]byte], or anything else. *)
Inductive value : Type :=
| Bytes (val : list byte)
| Other.

(** The stream decoder over [bufIn]: the values its successive calls
    yield, and the error of the call that follows them ([EOF] at a clean
    end of the stream, another error for a frame it cannot read). *)
Record decoder : Type := mkDecoder {
  values : list value;
  stop : error
}.

(** What [processFile] prints and returns. *)
Record report : Type := mkReport {
  status : Z;
  parsed : Z      (* "parsed a total of %d msgpack frames." *)
}.

(** The [for] loop of [processFile] and what follows it. Each iteration
    takes the next result of [decoder.Decode(&r)]; the [break]s inside the
    [switch] leave the [switch], not the loop. *)
Fixpoint loop (vals : list value) (k : Z) : outcome report :=
  match vals with
  | [] => Done (mkReport 0 k)     (* err != nil: break; Printf(k); return 0 *)
  | Bytes val :: vals =>
      h <- Frame.DecodeMsgpackBinArrayHeader val ;;
      if negb (is_nil (Frame.err h)) then loop vals k
      else
        tail <- Slice.from val (Frame.headerSize h) ;;
        if negb (is_nil (decodeSlice tail)) then loop vals k
        else loop vals (int (k + 1))
  | Other :: _ => Panicked UnexpectedType
  end.

Definition processFile (d : decoder) : outcome report := loop (values d) 0.

(** [main] once the flags are parsed: [validate] is the result of
    [cfg.ValidateConfig()]. *)
Definition main (validate : option error) (d : decoder) : exit :=
  match validate with
  | Some _ => Exit 1                          (* log.Fatalf *)
  | None =>
      match processFile d with
      | Done r => Exit (status r)             (* os.Exit(status) *)
      | Panicked p => Crash p
      end
  end.

(** A frame the loop counts: a non-empty byte array whose header read
    returns a nil error and whose remainder the payload decoder accepts. *)
Definition counted (v : value) : bool :=
  match v with
  | Bytes val =>
      match Frame.DecodeMsgpackBinArrayHeader val with
      | Done h =>
          is_nil (Frame.err h) &&
          match Slice.from val (Frame.headerSize h) with
          | Done tail => is_nil (decodeSlice tail)
          | Panicked _ => false
          end
      | Panicked _ => false
      end
  | Other => false
  end.

End Pipeline.
End MsgpackParseBench.

(** ** jsonParseBench: counting the lines of a JSON input *)

Module JsonParseBench.
Section Pipeline.

(** [codec.NewDecoderBytes(js, jh).Decode(&iface)]: the decoded value, or
    [None] for a non-nil error. *)
Variable iface : Type.
Variable decode : list byte -> option iface.

(** [jsonDecode(cfg, buf, js, lineNum)]: [buf] is received but never read
    or written. *)
Definition jsonDecode (buf js : list byte) (lineNum : Z) : outcome Z :=
  match decode js with
  | None => Panicked (DecodeErrorAt lineNum)
  | Some _ => Done 0
  end.

(** What [processFile] returns and, when it gets there, the number it
    prints in "parsed %d lines of json". *)
Record report : Type := mkReport {
  status : Z;
  printed : option Z
}.

(** The [for] loop of [processFile] and the [Printf] after it; [fuel]
    bounds the number of iterations. Unlike the converter's loop, the test
    for end-of-stream comes before [lineNum += 1]. *)
Fixpoint loop (fuel : nat) (lineNum : Z) (bufIn : reader) (buf : list byte)
  : option (outcome report * reader) :=
  match fuel with
  | O => None
  | S fuel =>
      let '((lastLine, err), bufIn) := ReadBytes bufIn newline in
      if negb (is_nil err) && negb (is_EOF err) then
        Some (Done (mkReport 2 None), bufIn)           (* printError(err); return 2 *)
      else if is_EOF err && (Z.of_nat (length lastLine) =? 0) then
        Some (Done (mkReport 0 (Some (int64 (lineNum - 1)))), bufIn)
      else
        match jsonDecode buf lastLine lineNum with
        | Panicked p => Some (Panicked p, bufIn)
        | Done status =>
            if status >? 0 then Some (Done (mkReport status None), bufIn)
            else
              let buf := @nil byte in                  (* buf.Reset() *)
              if is_EOF err then
                Some (Done (mkReport 0 (Some (int64 (lineNum - 1)))), bufIn)
              else loop fuel (int64 (lineNum + 1)) bufIn buf
        end
  end.

Definition processFile (bufIn : reader) : option (outcome report * reader) :=
  loop (S (length (pending bufIn))) 1 bufIn [].

End Pipeline.
End JsonParseBench.

(** ** Configuration: the files named on the command line *)

Module Config.
Section OS.

(** [os.Stat(name)]: what it reports about [name], or [None] for a non-nil
    error. *)
Record FileInfo : Type := mkFileInfo { IsDir : bool }.
Variable Stat : String.string -> option FileInfo.

(** [os.OpenFile(name, os.O_RDONLY, 0)] and [os.Create(name)]: whether the
    call returns a nil error. *)
Variable openOk : String.string -> bool.
Variable createOk : String.string -> bool.

Definition FileExists (name : String.string) : bool :=
  match Stat name with
  | None => false
  | Some fi => if IsDir fi then false else true
  end.

Definition DirExists (name : String.string) : bool :=
  match Stat name with
  | None => false
  | Some fi => if IsDir fi then true else false
  end.

(** An [*os.File]. *)
Inductive file : Type :=
| Stdin
| Stdout
| Opened (name : String.string)     (* from os.OpenFile, read only *)
| Created (name : String.string).   (* from os.Create, empty *)

(** The calls that reach the file system with more than a [Stat]. *)
Inductive oscall : Type :=
| CallOpenFile (name : String.string)
| CallCreate (name : String.string).

(** The errors [ValidateConfig] returns. *)
Inductive cfgError : Type :=
| NotExist (path : String.string)        (* "-input path '%s' does not exist" *)
| AlreadyExists (path : String.string)   (* "-output path '%s' already exists ..." *)
| OsError.                               (* the error of OpenFile or Create *)

(** [JsonMsgpConfig]; a nil [*os.File] is [None]. *)
Record JsonMsgpConfig : Type := mkConfig {
  InputPath : String.string;
  OutputPath : String.string;
  Input : option file;
  Output : option file
}.

Definition nonEmpty (s : String.string) : bool := negb (String.eqb s ""%string).

(** The first half of [ValidateConfig]: the input. *)
Definition validateInput (c : JsonMsgpConfig)
  : JsonMsgpConfig * option cfgError * list oscall :=
  if nonEmpty (InputPath c) then
    if negb (FileExists (InputPath c)) then
      (c, Some (NotExist (InputPath c)), [])
    else if openOk (InputPath c) then
      (mkConfig (InputPath c) (OutputPath c) (Some (Opened (InputPath c))) (Output c),
       None, [CallOpenFile (InputPath c)])
    else
      (mkConfig (InputPath c) (OutputPath c) None (Output c),
       Some OsError, [CallOpenFile (InputPath c)])
  else
    (mkConfig "(stdin)"%string (OutputPath c) (Some Stdin) (Output c), None, []).

(** The second half: the output. *)
Definition validateOutput (c : JsonMsgpConfig)
  : JsonMsgpConfig * option cfgError * list oscall :=
  if nonEmpty (OutputPath c) then
    if FileExists (OutputPath c) then
      (c, Some (AlreadyExists (OutputPath c)), [])
    else if createOk (OutputPath c) then
      (mkConfig (InputPath c) (OutputPath c) (Input c) (Some (Created (OutputPath c))),
       None, [CallCreate (OutputPath c)])
    else
      (mkConfig (InputPath c) (OutputPath c) (Input c) None,
       Some OsError, [CallCreate (OutputPath c)])
  else
    (mkConfig (InputPath c) "(stdout)"%string (Input c) (Some Stdout), None, []).

(** [(c *JsonMsgpConfig) ValidateConfig()]: the configuration it leaves, the
    error it returns and the calls it made, in order. *)
Definition ValidateConfig (c : JsonMsgpConfig)
  : JsonMsgpConfig * option cfgError * list oscall :=
  match validateInput c with
  | (c1, Some e, calls) => (c1, Some e, calls)
  | (c1, None, calls) =>
      match validateOutput c1 with
      | (c2, e, calls') => (c2, e, calls ++ calls')
      end
  end.

(** The files [main] has deferred a [Close] for once [ValidateConfig] has
    returned nil: [if cfg.InputPath != "" { defer cfg.Input.Close() }] and
    the same for the output. *)
Definition deferred (c : JsonMsgpConfig) : list (option file) :=
  (if nonEmpty (InputPath c) then [Input c] else [])
  ++ (if nonEmpty (OutputPath c) then [Output c] else []).

End OS.
End Config.

(** ** Case analysis of a slice handed to the header reader *)

(** The shapes a slice can have, as the reader distinguishes them. *)
Inductive shape : list byte -> Prop :=
| shape_bin8 b rest : shape (Byte.xc4 :: b :: rest)
| shape_bin16 b1 b0 rest : shape (Byte.xc5 :: b1 :: b0 :: rest)
| shape_bin32 m3 m2 m1 m0 rest : shape (Byte.xc6 :: m3 :: m2 :: m1 :: m0 :: rest)
| shape_short t rest :
    (t = Byte.xc4 /\ length (t :: rest) < 2)%nat
    \/ (t = Byte.xc5 /\ length (t :: rest) < 3)%nat
    \/ (t = Byte.xc6 /\ length (t :: rest) < 5)%nat ->
    shape (t :: rest)
| shape_other t rest :
    t <> Byte.xc4 -> t <> Byte.xc5 -> t <> Byte.xc6 -> shape (t :: rest).

(** ** The line counter after some iterations *)

(** [lineNum] after [n] executions of [lineNum += 1]. *)
Fixpoint advance (n : nat) (lineNum : Z) : Z :=
  match n with
  | O => lineNum
  | S n => advance n (int64 (lineNum + 1))
  end.

(** ** Stand-ins for the collaborators, for concrete runs *)

(** A codec pair that hands the bytes through unchanged, a payload decoder
    that accepts everything, and a file on which no write fails. *)
Definition passDecode (js : list byte) : option (list byte) := Some js.
Definition passEncode (v : list byte) : list byte * option error := (v, None).
Definition acceptAll (b : list byte) : option error := None.
Definition noFault (out d : list byte) : option nat := None.

(** A file that holds at most [cap] bytes: a write that would exceed that
    fails after filling the room that is left. *)
Definition fullAt (cap : nat) (out d : list byte) : option nat :=
  if (length out + length d <=? cap)%nat then None
  else Some (cap - length out)%nat.

(** A small file system: a regular file "in.json", a regular file
    "old.msgp", a directory "data", and nothing else. *)
Definition statDemo (name : String.string) : option Config.FileInfo :=
  if String.eqb name "in.json"%string then Some (Config.mkFileInfo false)
  else if String.eqb name "old.msgp"%string then Some (Config.mkFileInfo false)
  else if String.eqb name "data"%string then Some (Config.mkFileInfo true)
  else None.

(** A JSON decoder that only takes lines starting with an opening brace. *)
Definition objectsOnly (js : list byte) : option (list byte) :=
  match js with
  | b :: _ => if Byte.eqb b Byte.x7b then Some js else None
  | [] => None
  end.

(** * Properties *)

(** ** The codec on the boundary lengths *)

Example header_255 : Frame.binArrayHeader 255 = Done [Byte.xc4; Byte.xff].
Proof. reflexivity. Qed.
Example header_256 : Frame.binArrayHeader 256 = Done [Byte.xc5; Byte.x01; Byte.x00].
Proof. reflexivity. Qed.
Example header_65536 :
  Frame.binArrayHeader 65536 = Done [Byte.xc6; Byte.x00; Byte.x01; Byte.x00; Byte.x00].
Proof. reflexivity. Qed.
Example decode_256 :
  Frame.DecodeMsgpackBinArrayHeader [Byte.xc5; Byte.x01; Byte.x00; Byte.x07]
  = Done (Frame.mkHeader 3 256 259 None).
Proof. reflexivity. Qed.

(** ** Arithmetic of the conversions *)

Lemma to_byte_mod z : to_byte (z mod 256) = to_byte z.
Proof.
  apply byte.unsigned_inj. unfold to_byte.
  rewrite !byte.unsigned_of_Z. unfold byte.wrap.
  change (2 ^ 8) with 256. apply Z.mod_mod. lia.
Qed.

Lemma unsigned_to_byte z : byte.unsigned (to_byte z) = z mod 256.
Proof. unfold to_byte. now rewrite byte.unsigned_of_Z. Qed.

Lemma unsigned_to_byte_small z : 0 <= z < 256 -> byte.unsigned (to_byte z) = z.
Proof. intros. rewrite unsigned_to_byte. now apply Z.mod_small. Qed.

Lemma uint32_small z : 0 <= z <= 4294967295 -> uint32 z = z.
Proof. intros. unfold uint32, wrapU. apply Z.mod_small. lia. Qed.

Lemma int_small z : - 2 ^ 63 <= z < 2 ^ 63 -> int z = z.
Proof.
  intros. unfold int, wrapS. change (64 - 1) with 63.
  rewrite Z.mod_small; lia.
Qed.

Lemma be_value_fold n : forall L acc,
  fold_left (fun a b => a * 256 + byte.unsigned b) (be_bytes n L) acc
  = acc * 256 ^ Z.of_nat n + L mod 256 ^ Z.of_nat n.
Proof.
  induction n as [|k IH]; intros L acc.
  - cbn. rewrite Z.mod_1_r. lia.
  - cbn [be_bytes fold_left]. rewrite IH, unsigned_to_byte.
    rewrite Nat2Z.inj_succ, Z.pow_succ_r by lia.
    rewrite (Z.mul_comm 256 (256 ^ Z.of_nat k)).
    rewrite (Z.rem_mul_r L (256 ^ Z.of_nat k) 256) by lia.
    ring.
Qed.

Lemma be_value_be_bytes n L :
  0 <= L < 256 ^ Z.of_nat n -> be_value (be_bytes n L) = L.
Proof.
  intros H. unfold be_value. rewrite be_value_fold, Z.mod_small; lia.
Qed.

Lemma length_be_bytes n L : length (be_bytes n L) = n.
Proof. induction n; cbn; congruence. Qed.

(** ** The header writer *)

Lemma shiftr_div z k : 0 <= k -> Z.shiftr z k = z / 2 ^ k.
Proof. intros. now apply Z.shiftr_div_pow2. Qed.

Lemma binArrayHeader_bin8 L :
  L < 256 -> Frame.binArrayHeader L = Done [Byte.xc4; to_byte L].
Proof.
  intros H. unfold Frame.binArrayHeader.
  destruct (Z.ltb_spec L 256); [|lia].
  cbn -[to_byte]. unfold uint8, wrapU. change (2 ^ 8) with 256.
  now rewrite to_byte_mod.
Qed.

Lemma binArrayHeader_bin16 L :
  256 <= L < 65536 ->
  Frame.binArrayHeader L = Done [Byte.xc5; to_byte (L / 256); to_byte L].
Proof.
  intros H. unfold Frame.binArrayHeader.
  destruct (Z.ltb_spec L 256); [lia|].
  destruct (Z.ltb_spec L 65536); [|lia].
  cbn -[Z.shiftr to_byte]. unfold uint16, wrapU. rewrite (Z.mod_small L) by lia.
  rewrite shiftr_div by lia. reflexivity.
Qed.

Lemma binArrayHeader_bin32 L :
  65536 <= L ->
  Frame.binArrayHeader L =
  Done [Byte.xc6; to_byte (L / 2 ^ 24); to_byte (L / 2 ^ 16); to_byte (L / 2 ^ 8);
        to_byte L].
Proof.
  intros H. unfold Frame.binArrayHeader.
  destruct (Z.ltb_spec L 256); [lia|].
  destruct (Z.ltb_spec L 65536); [lia|].
  cbn -[Z.shiftr to_byte]. rewrite !shiftr_div by lia. reflexivity.
Qed.

Lemma binArrayHeader_total L :
  0 <= L ->
  Frame.binArrayHeader L = Done (variant_tag L :: be_bytes (field_width L) L).
Proof.
  intros HL. unfold field_width, variant_tag.
  destruct (Z.ltb_spec L 256) as [H8|H8];
    [|destruct (Z.ltb_spec L 65536) as [H16|H16]].
  - rewrite binArrayHeader_bin8 by lia. cbn. now rewrite Z.div_1_r.
  - rewrite binArrayHeader_bin16 by lia. cbn. now rewrite Z.div_1_r.
  - rewrite binArrayHeader_bin32 by lia. cbn. now rewrite Z.div_1_r.
Qed.

(** C1. For every length [L] that fits 32 bits the writer emits the tag of
    the narrowest of the three variants followed by [L] in 1, 2 or 4
    big-endian bytes: 2 bytes in all below 256, 3 bytes below 65536, 5 bytes
    otherwise; no narrower variant could hold [L]. *)
Theorem binArrayHeader_minimal_width (L : Z) :
  0 <= L <= 2 ^ 32 - 1 ->
  Frame.binArrayHeader L = Done (variant_tag L :: be_bytes (field_width L) L)
  /\ be_value (be_bytes (field_width L) L) = L
  /\ (L < 256 ->
      variant_tag L = Byte.xc4 /\ field_width L = 1%nat /\
      exists b, Frame.binArrayHeader L = Done [Byte.xc4; b] /\ byte.unsigned b = L)
  /\ (256 <= L < 65536 ->
      variant_tag L = Byte.xc5 /\ field_width L = 2%nat /\
      exists b1 b0, Frame.binArrayHeader L = Done [Byte.xc5; b1; b0] /\
                    byte.unsigned b1 * 256 + byte.unsigned b0 = L)
  /\ (65536 <= L ->
      variant_tag L = Byte.xc6 /\ field_width L = 4%nat /\
      exists b3 b2 b1 b0,
        Frame.binArrayHeader L = Done [Byte.xc6; b3; b2; b1; b0] /\
        ((byte.unsigned b3 * 256 + byte.unsigned b2) * 256 + byte.unsigned b1) * 256
        + byte.unsigned b0 = L)
  /\ (forall w, In w [1; 2; 4]%nat -> L < 256 ^ Z.of_nat w -> (field_width L <= w)%nat).
Proof.
  intros HL. unfold field_width, variant_tag.
  destruct (Z.ltb_spec L 256) as [H8|H8];
    [|destruct (Z.ltb_spec L 65536) as [H16|H16]].
  - pose proof (be_value_be_bytes 1 L ltac:(cbn; lia)) as Hv.
    split; [|split; [exact Hv|split; [|split; [|split]]]]; try (intros; lia).
    + rewrite binArrayHeader_bin8 by lia. cbn. now rewrite Z.div_1_r.
    + intros _. split; [reflexivity|split; [reflexivity|]].
      exists (to_byte L). split; [now apply binArrayHeader_bin8|].
      apply unsigned_to_byte_small; lia.
    + intros w [<-|[<-|[<-|[]]]] _; lia.
  - pose proof (be_value_be_bytes 2 L ltac:(cbn; lia)) as Hv.
    split; [|split; [exact Hv|split; [|split; [|split]]]]; try (intros; lia).
    + rewrite binArrayHeader_bin16 by lia. cbn. now rewrite Z.div_1_r.
    + intros _. split; [reflexivity|split; [reflexivity|]].
      exists (to_byte (L / 256)), (to_byte L).
      split; [now apply binArrayHeader_bin16|].
      cbn in Hv. rewrite Z.div_1_r in Hv. exact Hv.
    + intros w [<-|[<-|[<-|[]]]] Hw; cbn in Hw; lia.
  - pose proof (be_value_be_bytes 4 L ltac:(cbn; lia)) as Hv.
    split; [|split; [exact Hv|split; [|split; [|split]]]]; try (intros; lia).
    + rewrite binArrayHeader_bin32 by lia. cbn. now rewrite Z.div_1_r.
    + intros _. split; [reflexivity|split; [reflexivity|]].
      exists (to_byte (L / 2 ^ 24)), (to_byte (L / 2 ^ 16)), (to_byte (L / 2 ^ 8)),
        (to_byte L).
      split; [now apply binArrayHeader_bin32|].
      cbn in Hv. rewrite Z.div_1_r in Hv. exact Hv.
    + intros w [<-|[<-|[<-|[]]]] Hw; cbn in Hw; lia.
Qed.

(** The boundary lengths 0, 255, 256, 65535 and 65536. *)
Lemma binArrayHeader_minimal_width_witness :
  0 <= 65536 <= 2 ^ 32 - 1
  /\ Frame.binArrayHeader 0 = Done [Byte.xc4; Byte.x00]
  /\ Frame.binArrayHeader 255 = Done [Byte.xc4; Byte.xff]
  /\ Frame.binArrayHeader 256 = Done [Byte.xc5; Byte.x01; Byte.x00]
  /\ Frame.binArrayHeader 65535 = Done [Byte.xc5; Byte.xff; Byte.xff]
  /\ Frame.binArrayHeader 65536
     = Done [Byte.xc6; Byte.x00; Byte.x01; Byte.x00; Byte.x00].
Proof.
  split; [lia|].
  split; [exact (proj1 (binArrayHeader_minimal_width 0 ltac:(lia)))|].
  split; [exact (proj1 (binArrayHeader_minimal_width 255 ltac:(lia)))|].
  split; [exact (proj1 (binArrayHeader_minimal_width 256 ltac:(lia)))|].
  split; [exact (proj1 (binArrayHeader_minimal_width 65535 ltac:(lia)))|].
  exact (proj1 (binArrayHeader_minimal_width 65536 ltac:(lia))).
Defined.

(** ** The header reader *)

Lemma lor_shiftl_add a b k :
  0 <= k -> 0 <= a < 2 ^ k -> Z.lor a (Z.shiftl b k) = a + b * 2 ^ k.
Proof.
  intros Hk Ha.
  assert (Hd : Z.land a (Z.shiftl b k) = 0).
  { apply Z.bits_inj'. intros n Hn.
    rewrite Z.land_spec, Z.bits_0.
    destruct (Z.ltb_spec n k).
    - rewrite Z.shiftl_spec_low by lia. apply andb_false_r.
    - rewrite <- (Z.mod_small a (2 ^ k)) by lia.
      rewrite Z.mod_pow2_bits_high by lia. reflexivity. }
  rewrite <- Z.lxor_lor by exact Hd.
  rewrite <- Z.add_nocarry_lxor by exact Hd.
  now rewrite Z.shiftl_mul_pow2.
Qed.

Lemma uint16_small z : 0 <= z < 65536 -> uint16 z = z.
Proof. intros. unfold uint16, wrapU. apply Z.mod_small. lia. Qed.

Lemma Uint16_value b1 b0 :
  BigEndian.Uint16 [b1; b0] = Done (be_value [b1; b0]).
Proof.
  pose proof (byte.unsigned_range b1). pose proof (byte.unsigned_range b0).
  cbn -[Z.shiftl uint16]. f_equal.
  rewrite (uint16_small (byte.unsigned b0)), (uint16_small (byte.unsigned b1)) by lia.
  rewrite Z.shiftl_mul_pow2 by lia.
  rewrite uint16_small by lia.
  rewrite <- Z.shiftl_mul_pow2 by lia.
  rewrite lor_shiftl_add by lia. unfold be_value. cbn. lia.
Qed.

Lemma Uint32_value m3 m2 m1 m0 :
  BigEndian.Uint32 [m3; m2; m1; m0] = Done (be_value [m3; m2; m1; m0]).
Proof.
  pose proof (byte.unsigned_range m3). pose proof (byte.unsigned_range m2).
  pose proof (byte.unsigned_range m1). pose proof (byte.unsigned_range m0).
  cbn -[Z.shiftl uint32]. f_equal.
  rewrite (uint32_small (byte.unsigned m0)), (uint32_small (byte.unsigned m1)),
    (uint32_small (byte.unsigned m2)), (uint32_small (byte.unsigned m3)) by lia.
  rewrite !Z.shiftl_mul_pow2 by lia.
  rewrite !uint32_small by lia.
  rewrite <- !Z.shiftl_mul_pow2 by lia.
  rewrite (lor_shiftl_add (byte.unsigned m0)) by lia.
  rewrite (lor_shiftl_add _ (byte.unsigned m2) 16) by lia.
  rewrite (lor_shiftl_add _ (byte.unsigned m3) 24) by lia.
  unfold be_value. cbn. lia.
Qed.

(** Unfold one run of the reader on a slice whose length test is known. *)
Ltac decode_run :=
  unfold Frame.DecodeMsgpackBinArrayHeader, Frame.msgpackBin8, Frame.msgpackBin16,
    Frame.msgpackBin32;
  cbn [Slice.index nth_error obind];
  repeat match goal with
         | |- context [Byte.eqb ?a ?b] =>
             first [ change (Byte.eqb a b) with true
                   | change (Byte.eqb a b) with false ]
         end;
  cbv iota;
  match goal with
  | |- context [Z.ltb ?n ?k] =>
      destruct (Z.ltb_spec n k); [try (cbn [length] in *; lia)|try (cbn [length] in *; lia)]
  end;
  cbn [Slice.sub length Nat.leb andb firstn skipn Nat.sub Slice.index nth_error obind].

Lemma Decode_bin8 b rest :
  Frame.DecodeMsgpackBinArrayHeader (Byte.xc4 :: b :: rest)
  = Done (Frame.mkHeader 2 (byte.unsigned b) (2 + byte.unsigned b) None).
Proof.
  pose proof (byte.unsigned_range b).
  decode_run. unfold Frame.finish.
  rewrite (int_small (byte.unsigned b)) by lia. now rewrite int_small by lia.
Qed.

Lemma Decode_bin16 b1 b0 rest :
  Frame.DecodeMsgpackBinArrayHeader (Byte.xc5 :: b1 :: b0 :: rest)
  = Done (Frame.mkHeader 3 (be_value [b1; b0]) (3 + be_value [b1; b0]) None).
Proof.
  pose proof (byte.unsigned_range b1). pose proof (byte.unsigned_range b0).
  assert (Hv : 0 <= be_value [b1; b0] < 65536) by (unfold be_value; cbn; lia).
  decode_run.
  rewrite Uint16_value. cbn [obind]. unfold Frame.finish.
  rewrite (int_small (be_value _)) by lia. now rewrite int_small by lia.
Qed.

Lemma Decode_bin32 m3 m2 m1 m0 rest :
  Frame.DecodeMsgpackBinArrayHeader (Byte.xc6 :: m3 :: m2 :: m1 :: m0 :: rest)
  = Done (Frame.mkHeader 5 (be_value [m3; m2; m1; m0])
                           (5 + be_value [m3; m2; m1; m0]) None).
Proof.
  pose proof (byte.unsigned_range m3). pose proof (byte.unsigned_range m2).
  pose proof (byte.unsigned_range m1). pose proof (byte.unsigned_range m0).
  assert (Hv : 0 <= be_value [m3; m2; m1; m0] < 2 ^ 32)
    by (unfold be_value; cbn; lia).
  decode_run.
  rewrite Uint32_value. cbn [obind]. unfold Frame.finish.
  rewrite (int_small (be_value _)) by lia. now rewrite int_small by lia.
Qed.

Lemma tag_eqb_false t u : t <> u -> Byte.eqb t u = false.
Proof.
  intros H. destruct (Byte.eqb t u) eqn:E; [|reflexivity].
  now apply Byte.byte_dec_bl in E.
Qed.

Lemma Decode_other_tag t rest :
  t <> Byte.xc4 -> t <> Byte.xc5 -> t <> Byte.xc6 ->
  Frame.DecodeMsgpackBinArrayHeader (t :: rest) = Done (Frame.mkHeader 0 0 0 None).
Proof.
  intros H4 H5 H6. unfold Frame.DecodeMsgpackBinArrayHeader.
  cbn -[Z.of_nat Byte.eqb Z.ltb].
  unfold Frame.msgpackBin8, Frame.msgpackBin16, Frame.msgpackBin32.
  now rewrite !tag_eqb_false by assumption.
Qed.

Lemma be_value_single b : be_value [b] = byte.unsigned b.
Proof. reflexivity. Qed.

Lemma Decode_header L suffix :
  0 <= L <= 2 ^ 32 - 1 ->
  Frame.DecodeMsgpackBinArrayHeader
    ((variant_tag L :: be_bytes (field_width L) L) ++ suffix)
  = Done (Frame.mkHeader (Z.of_nat (S (field_width L))) L
                         (Z.of_nat (S (field_width L)) + L) None).
Proof.
  intros HL. unfold field_width, variant_tag.
  destruct (Z.ltb_spec L 256) as [H8|H8];
    [|destruct (Z.ltb_spec L 65536) as [H16|H16]].
  - pose proof (be_value_be_bytes 1 L ltac:(cbn; lia)) as Hv.
    cbn [be_bytes app] in *. rewrite Decode_bin8.
    rewrite <- (be_value_single (to_byte _)). now rewrite Hv.
  - pose proof (be_value_be_bytes 2 L ltac:(cbn; lia)) as Hv.
    cbn [be_bytes app] in *. rewrite Decode_bin16. now rewrite Hv.
  - pose proof (be_value_be_bytes 4 L ltac:(cbn; lia)) as Hv.
    cbn [be_bytes app] in *. rewrite Decode_bin32. now rewrite Hv.
Qed.

(** C2. Reading back a written header, whatever follows it, succeeds and
    reports the length [L] that was written, the width that was written
    (2, 3 or 5) and their sum; so a payload [P] framed as header then [P] is
    recovered exactly from the reported sizes, and exactly header width plus
    [length P] bytes are consumed. *)
Theorem Decode_binArrayHeader_roundtrip (L : Z) (suffix : list byte) :
  0 <= L <= 2 ^ 32 - 1 ->
  exists hdr,
    Frame.binArrayHeader L = Done hdr
    /\ (length hdr = 2 \/ length hdr = 3 \/ length hdr = 5)%nat
    /\ Frame.DecodeMsgpackBinArrayHeader (hdr ++ suffix)
       = Done (Frame.mkHeader (Z.of_nat (length hdr)) L (Z.of_nat (length hdr) + L) None)
    /\ forall P rest : list byte,
        Z.of_nat (length P) = L ->
        exists h,
          Frame.DecodeMsgpackBinArrayHeader (hdr ++ P ++ rest) = Done h
          /\ Frame.err h = None
          /\ Frame.totalFrameSize h = Z.of_nat (length hdr) + Z.of_nat (length P)
          /\ firstn (Z.to_nat (Frame.payloadSize h))
                    (skipn (Z.to_nat (Frame.headerSize h)) (hdr ++ P ++ rest)) = P
          /\ skipn (Z.to_nat (Frame.totalFrameSize h)) (hdr ++ P ++ rest) = rest.
Proof.
  intros HL.
  pose proof (binArrayHeader_total L ltac:(lia)) as Hh.
  set (hdr := variant_tag L :: be_bytes (field_width L) L) in *.
  assert (Hlen : length hdr = S (field_width L))
    by (unfold hdr; cbn [length]; now rewrite length_be_bytes).
  exists hdr. split; [exact Hh|]. split.
  { rewrite Hlen. unfold field_width.
    destruct (L <? 256); [|destruct (L <? 65536)]; auto. }
  split.
  { rewrite Hlen. now apply Decode_header. }
  intros P rest HP.
  eexists. split; [now apply Decode_header|].
  cbn [Frame.err Frame.totalFrameSize Frame.payloadSize Frame.headerSize].
  rewrite <- Hlen, <- HP, <- Nat2Z.inj_add, !Nat2Z.id.
  split; [reflexivity|]. split; [reflexivity|].
  rewrite skipn_app, skipn_all, Nat.sub_diag. cbn [app skipn].
  split.
  - rewrite firstn_app, firstn_all, Nat.sub_diag. cbn [firstn]. apply app_nil_r.
  - rewrite app_assoc, skipn_app, skipn_all2 by (rewrite length_app; lia).
    rewrite length_app, Nat.sub_diag. reflexivity.
Qed.

Lemma Decode_binArrayHeader_roundtrip_witness :
  0 <= 256 <= 2 ^ 32 - 1 /\
  exists hdr,
    Frame.binArrayHeader 256 = Done hdr
    /\ Frame.DecodeMsgpackBinArrayHeader (hdr ++ [Byte.x0a; Byte.xc4])
       = Done (Frame.mkHeader (Z.of_nat (length hdr)) 256
                              (Z.of_nat (length hdr) + 256) None).
Proof.
  split; [lia|].
  destruct (Decode_binArrayHeader_roundtrip 256 [Byte.x0a; Byte.xc4] ltac:(lia))
    as (hdr & H1 & _ & H2 & _).
  exists hdr. split; assumption.
Defined.

(** C3, as the code has it. The switch on the tag byte has no default case:
    for a first byte other than 0xC4, 0xC5 and 0xC6 the reader returns a nil
    error with header width, payload length and total frame length all 0. *)
Theorem Decode_unrecognized_tag (t : byte) (rest : list byte) :
  t <> Byte.xc4 -> t <> Byte.xc5 -> t <> Byte.xc6 ->
  Frame.DecodeMsgpackBinArrayHeader (t :: rest) = Done (Frame.mkHeader 0 0 0 None).
Proof.
  intros H4 H5 H6.
  unfold Frame.DecodeMsgpackBinArrayHeader.
  cbn [Slice.index nth_error obind].
  assert (E4 : Byte.eqb t Frame.msgpackBin8 = false) by now apply tag_eqb_false.
  assert (E5 : Byte.eqb t Frame.msgpackBin16 = false) by now apply tag_eqb_false.
  assert (E6 : Byte.eqb t Frame.msgpackBin32 = false) by now apply tag_eqb_false.
  rewrite E4, E5, E6.
  reflexivity.
Qed.

Lemma Decode_unrecognized_tag_witness :
  Frame.DecodeMsgpackBinArrayHeader [Byte.x81; Byte.xa1; Byte.x61; Byte.x01]
  = Done (Frame.mkHeader 0 0 0 None).
Proof.
  apply (Decode_unrecognized_tag Byte.x81 [Byte.xa1; Byte.x61; Byte.x01]);
    discriminate.
Defined.

(** The claim that an unrecognized tag yields an error fails on the one-byte
    slice [0x81]: the reader returns a nil error. *)
Lemma Decode_unrecognized_tag_counterexample :
  let p := [Byte.x81] in
  p <> []
  /\ hd Byte.x00 p <> Byte.xc4 /\ hd Byte.x00 p <> Byte.xc5 /\ hd Byte.x00 p <> Byte.xc6
  /\ Frame.DecodeMsgpackBinArrayHeader p = Done (Frame.mkHeader 0 0 0 None)
  /\ ~ (exists h e, Frame.DecodeMsgpackBinArrayHeader p = Done h /\ Frame.err h = Some e).
Proof.
  cbv zeta. repeat split; try discriminate.
  intros (h & e & Hd & He). cbv in Hd. injection Hd as <-. discriminate He.
Qed.

Lemma Decode_too_small t rest :
  (t = Byte.xc4 /\ length (t :: rest) < 2)%nat
  \/ (t = Byte.xc5 /\ length (t :: rest) < 3)%nat
  \/ (t = Byte.xc6 /\ length (t :: rest) < 5)%nat ->
  Frame.DecodeMsgpackBinArrayHeader (t :: rest)
  = Done (Frame.tooSmall (Z.of_nat (length (t :: rest)))).
Proof.
  intros [[-> H]|[[-> H]|[-> H]]];
    unfold Frame.DecodeMsgpackBinArrayHeader, Frame.msgpackBin8, Frame.msgpackBin16,
      Frame.msgpackBin32;
    cbn [Slice.index nth_error obind];
    repeat match goal with
           | |- context [Byte.eqb ?a ?b] =>
               first [ change (Byte.eqb a b) with true
                     | change (Byte.eqb a b) with false ]
           end;
    cbv iota;
    match goal with
    | |- context [Z.ltb ?n ?k] => destruct (Z.ltb_spec n k); [reflexivity|lia]
    end.
Qed.

(** C4. A slice that starts with one of the three tags but is shorter than
    that variant's header (2, 3 or 5 bytes) makes the reader return its
    "too small" error, a non-nil error, with the three sizes left at zero:
    no payload length is reported. *)
Theorem Decode_truncated_header (t : byte) (rest : list byte) :
  (t = Byte.xc4 /\ length (t :: rest) < 2)%nat
  \/ (t = Byte.xc5 /\ length (t :: rest) < 3)%nat
  \/ (t = Byte.xc6 /\ length (t :: rest) < 5)%nat ->
  exists h,
    Frame.DecodeMsgpackBinArrayHeader (t :: rest) = Done h
    /\ Frame.err h = Some (ErrTooSmall (Z.of_nat (length (t :: rest))))
    /\ Frame.headerSize h = 0 /\ Frame.payloadSize h = 0
    /\ Frame.totalFrameSize h = 0.
Proof.
  intros H. eexists. split; [now apply Decode_too_small|].
  repeat split.
Qed.

Lemma Decode_truncated_header_witness :
  exists h,
    Frame.DecodeMsgpackBinArrayHeader [Byte.xc6; Byte.x00; Byte.x01; Byte.x00] = Done h
    /\ Frame.err h = Some (ErrTooSmall 4)
    /\ Frame.headerSize h = 0 /\ Frame.payloadSize h = 0
    /\ Frame.totalFrameSize h = 0.
Proof.
  apply (Decode_truncated_header Byte.xc6 [Byte.x00; Byte.x01; Byte.x00]).
  right. right. split; [reflexivity|cbn; lia].
Defined.

(** C9. The reader indexes [p[0]] before any length test: on a slice of at
    least one byte every access it makes is in bounds, so it returns; on the
    empty slice that first access is out of range and the call panics instead
    of returning an error. *)
Theorem Decode_bounds (p : list byte) :
  (p = [] -> Frame.DecodeMsgpackBinArrayHeader p = Panicked IndexOutOfRange)
  /\ ((1 <= length p)%nat -> exists h, Frame.DecodeMsgpackBinArrayHeader p = Done h).
Proof.
  split; [intros ->; reflexivity|].
  destruct p as [|t rest]; [cbn; lia|intros _].
  destruct (Byte.byte_eq_dec t Byte.xc4) as [->|N4].
  { destruct rest as [|b rest].
    - eexists. apply Decode_too_small. left. split; [reflexivity|cbn; lia].
    - eexists. apply Decode_bin8. }
  destruct (Byte.byte_eq_dec t Byte.xc5) as [->|N5].
  { destruct rest as [|b1 [|b0 rest]];
      try (eexists; apply Decode_too_small; right; left;
           split; [reflexivity|cbn; lia]).
    eexists. apply Decode_bin16. }
  destruct (Byte.byte_eq_dec t Byte.xc6) as [->|N6].
  { destruct rest as [|m3 [|m2 [|m1 [|m0 rest]]]];
      try (eexists; apply Decode_too_small; right; right;
           split; [reflexivity|cbn; lia]).
    eexists. apply Decode_bin32. }
  eexists. now apply Decode_other_tag.
Qed.

Lemma Decode_bounds_witness :
  Frame.DecodeMsgpackBinArrayHeader [] = Panicked IndexOutOfRange
  /\ exists h, Frame.DecodeMsgpackBinArrayHeader [Byte.xc5] = Done h.
Proof.
  split.
  - apply (proj1 (Decode_bounds [])). reflexivity.
  - apply (proj2 (Decode_bounds [Byte.xc5])). cbn. lia.
Defined.


(** ** json2msgpack: one record *)

Section EncodeProperties.
Variable iface : Type.
Variable jsonDecode : list byte -> option iface.
Variable msgpackEncode : iface -> list byte * option error.
Variable wfault : list byte -> list byte -> option nat.

#[local] Abbreviation state := Json2Msgpack.state.
#[local] Abbreviation mkState := Json2Msgpack.mkState.
#[local] Abbreviation input := Json2Msgpack.input.
#[local] Abbreviation output := Json2Msgpack.output.
#[local] Abbreviation buf := Json2Msgpack.buf.
#[local] Abbreviation jsonToMsgp :=
  (Json2Msgpack.jsonToMsgp iface jsonDecode msgpackEncode wfault).
#[local] Abbreviation loop := (Json2Msgpack.loop iface jsonDecode msgpackEncode wfault).
#[local] Abbreviation processFile :=
  (Json2Msgpack.processFile iface jsonDecode msgpackEncode wfault).
#[local] Abbreviation main := (Json2Msgpack.main iface jsonDecode msgpackEncode wfault).

(** What [jsonToMsgp] does once the line is decoded and encoded, in terms of
    the buffer content [payload] after [enc.Encode]. *)
Lemma jsonToMsgp_encoded js lineNum s v enc :
  jsonDecode js = Some v ->
  msgpackEncode v = (enc, None) ->
  let payload := buf s ++ enc in
  let blen := Z.of_nat (length payload) in
  jsonToMsgp js lineNum s =
  if blen >? 4294967295 then
    (Panicked (TooLongAt lineNum blen), mkState (input s) (output s) payload)
  else
    match
      Json2Msgpack.writeMsgpackBinArrayHeader wfault (uint32 blen)
        (mkState (input s) (output s) payload)
    with
    | (Panicked p, s1) => (Panicked p, s1)
    | (Done (Some _), s1) => (Panicked (HeaderWriteErrorAt lineNum blen), s1)
    | (Done None, s1) =>
        match Json2Msgpack.ioCopy wfault s1 with
        | (Panicked p, s2) => (Panicked p, s2)
        | (Done (Some _), s2) => (Panicked (CopyErrorAt lineNum), s2)
        | (Done None, s2) => (Done 0, s2)
        end
    end.
Proof.
  intros Hd He payload blen.
  unfold Json2Msgpack.jsonToMsgp. rewrite Hd.
  unfold Json2Msgpack.bind at 1. unfold Json2Msgpack.Encode. rewrite He.
  cbn [is_nil negb].
  unfold Json2Msgpack.bind at 1. unfold Json2Msgpack.bufLen.
  cbn [Json2Msgpack.buf Json2Msgpack.input Json2Msgpack.output].
  fold payload. fold blen.
  destruct (blen >? 4294967295); [reflexivity|].
  unfold Json2Msgpack.bind at 1.
  destruct (Json2Msgpack.writeMsgpackBinArrayHeader wfault (uint32 blen) _)
    as [[[e|]|p] s1]; try reflexivity.
  cbn [is_nil negb]. unfold Json2Msgpack.bind at 1.
  destruct (Json2Msgpack.ioCopy wfault s1) as [[[e|]|p] s2]; reflexivity.
Qed.

Lemma writeMsgpackBinArrayHeader_run l s :
  0 <= l ->
  Json2Msgpack.writeMsgpackBinArrayHeader wfault l s
  = Json2Msgpack.Write wfault (variant_tag l :: be_bytes (field_width l) l) s.
Proof.
  intros Hl. unfold Json2Msgpack.writeMsgpackBinArrayHeader, Json2Msgpack.bind,
    Json2Msgpack.lift.
  now rewrite binArrayHeader_total.
Qed.

Lemma gtb_max_uint32 blen :
  (blen >? 4294967295) = true <-> 2 ^ 32 <= blen.
Proof.
  rewrite Z.gtb_ltb, Z.ltb_lt. change (2 ^ 32) with 4294967296. lia.
Qed.

(** C5. Once a record is decoded and encoded, a payload of 2^32 bytes or
    more makes [jsonToMsgp] panic with the too-long error while the output
    still holds exactly what it held before the record; a payload of at most
    2^32-1 bytes never raises that error. *)
Theorem jsonToMsgp_oversize js lineNum s v enc :
  jsonDecode js = Some v ->
  msgpackEncode v = (enc, None) ->
  let payload := buf s ++ enc in
  let blen := Z.of_nat (length payload) in
  (2 ^ 32 <= blen ->
   jsonToMsgp js lineNum s
   = (Panicked (TooLongAt lineNum blen), mkState (input s) (output s) payload))
  /\ (blen <= 2 ^ 32 - 1 ->
      forall n b, fst (jsonToMsgp js lineNum s) <> Panicked (TooLongAt n b)).
Proof.
  intros Hd He payload blen.
  rewrite (jsonToMsgp_encoded js lineNum s v enc Hd He).
  fold payload. fold blen. split.
  - intros Hbig. apply gtb_max_uint32 in Hbig. now rewrite Hbig.
  - intros Hsmall n b.
    destruct (blen >? 4294967295) eqn:E.
    { apply gtb_max_uint32 in E. lia. }
    destruct (Json2Msgpack.writeMsgpackBinArrayHeader wfault (uint32 blen) _)
      as [[[e|]|p] s1] eqn:Ew; cbn [fst]; try discriminate.
    + destruct (Json2Msgpack.ioCopy wfault s1) as [[[e|]|p] s2] eqn:Ec;
        cbn [fst]; try discriminate.
      unfold Json2Msgpack.ioCopy in Ec.
      destruct (buf s1); [discriminate|].
      destruct (wfault (output s1) _); discriminate.
    + rewrite writeMsgpackBinArrayHeader_run in Ew
        by (unfold uint32, wrapU; apply Z.mod_pos_bound; lia).
      unfold Json2Msgpack.Write in Ew.
      destruct (wfault _ _); discriminate.
Qed.

Lemma frame_eq P :
  Z.of_nat (length P) <= 4294967295 ->
  frame P
  = (variant_tag (Z.of_nat (length P))
       :: be_bytes (field_width (Z.of_nat (length P))) (Z.of_nat (length P))) ++ P.
Proof.
  intros H. unfold frame. rewrite uint32_small by lia.
  now rewrite binArrayHeader_total by lia.
Qed.


(** With a file that takes every write, a record that converts is framed
    whole. *)
Lemma jsonToMsgp_ok js lineNum s v enc :
  (forall out d, wfault out d = None) ->
  jsonDecode js = Some v ->
  msgpackEncode v = (enc, None) ->
  Z.of_nat (length (buf s ++ enc)) <= 4294967295 ->
  jsonToMsgp js lineNum s
  = (Done 0, mkState (input s) (output s ++ frame (buf s ++ enc)) []).
Proof.
  intros Hw Hd He Hlen.
  rewrite (jsonToMsgp_encoded js lineNum s v enc Hd He).
  destruct (Z.gtb_spec (Z.of_nat (length (buf s ++ enc))) 4294967295); [lia|].
  rewrite uint32_small by lia.
  rewrite writeMsgpackBinArrayHeader_run by lia.
  unfold Json2Msgpack.Write. rewrite Hw.
  unfold Json2Msgpack.ioCopy.
  cbn [Json2Msgpack.buf Json2Msgpack.input Json2Msgpack.output].
  rewrite frame_eq by lia.
  destruct (buf s ++ enc) as [|b payload'] eqn:Ep.
  - now rewrite app_nil_r.
  - rewrite Hw. now rewrite <- app_assoc.
Qed.


(** ** json2msgpack: the read loop *)

Lemma cut_none d l : ~ In d l -> cut d l = None.
Proof.
  induction l as [|b l IH]; intros H; [reflexivity|].
  cbn [cut]. rewrite tag_eqb_false by (intros ->; apply H; now left).
  rewrite IH; [reflexivity|]. intros Hin. apply H. now right.
Qed.

Lemma cut_line d l rest :
  ~ In d l -> cut d (l ++ d :: rest) = Some (l ++ [d], rest).
Proof.
  induction l as [|b l IH]; intros H; cbn [cut app].
  - now rewrite Byte.byte_dec_lb.
  - rewrite tag_eqb_false by (intros ->; apply H; now left).
    rewrite IH; [reflexivity|]. intros Hin. apply H. now right.
Qed.


Lemma length_text_cons l lines last :
  length (text (l :: lines) last) = (length l + 1 + length (text lines last))%nat.
Proof.
  unfold text. cbn [map concat]. rewrite <- !app_assoc, !length_app. cbn. lia.
Qed.

Lemma text_cons l lines last :
  text (l :: lines) last = l ++ newline :: text lines last.
Proof. unfold text. cbn [map concat]. now rewrite <- !app_assoc. Qed.

Lemma loop_text lines : forall last payloads fuel lineNum out,
  (forall o d, wfault o d = None) ->
  Forall (fun l => ~ In newline l) lines ->
  ~ In newline last ->
  Forall2 (converts jsonDecode msgpackEncode) (records lines last) payloads ->
  (length (text lines last) < fuel)%nat ->
  loop fuel lineNum (mkState (mkReader (text lines last) EOF) out [])
  = Some (Done 0, mkState (mkReader [] EOF) (out ++ concat (map frame payloads)) []).
Proof.
  induction lines as [|l lines IH]; intros last payloads fuel lineNum out Hw Hl Hlast Hc Hf.
  - destruct fuel as [|fuel]; [lia|].
    unfold text, records in *. cbn [map concat app] in *.
    cbn [Json2Msgpack.loop]. unfold Json2Msgpack.readLine, ReadBytes.
    cbn [Json2Msgpack.input Json2Msgpack.output Json2Msgpack.buf pending ending].
    rewrite cut_none by assumption.
    cbn [is_nil is_EOF negb andb].
    destruct last as [|b last].
    + inversion Hc; subst. cbn. now rewrite app_nil_r.
    + inversion Hc as [|js P recs Ps (v & Hd & He & HP) Hrest]; subst.
      inversion Hrest; subst.
      replace (Z.of_nat (length (b :: last)) =? 0) with false
        by (symmetry; apply Z.eqb_neq; cbn [length]; lia).
      rewrite (jsonToMsgp_ok _ _ _ v P Hw Hd He) by exact HP.
      cbn. now rewrite app_nil_r.
  - destruct fuel as [|fuel]; [lia|].
    inversion Hl as [|? ? Hl1 Hl2]; subst.
    unfold records in Hc. cbn [map app] in Hc.
    inversion Hc as [|js P recs Ps (v & Hd & He & HP) Hrest]; subst.
    rewrite length_text_cons in Hf. rewrite text_cons.
    cbn [Json2Msgpack.loop]. unfold Json2Msgpack.readLine, ReadBytes.
    cbn [Json2Msgpack.input Json2Msgpack.output Json2Msgpack.buf pending ending].
    rewrite cut_line by assumption.
    cbn [is_nil is_EOF negb andb].
    rewrite (jsonToMsgp_ok _ _ _ v P Hw Hd He) by exact HP.
    cbn [Z.gtb Z.compare snd Json2Msgpack.bufReset Json2Msgpack.input
         Json2Msgpack.output Json2Msgpack.buf app].
    rewrite (IH last Ps fuel _ _ Hw Hl2 Hlast Hrest) by lia.
    cbn [map concat]. now rewrite <- app_assoc.
Qed.

(** C6. For an input of complete lines followed by a last span without
    newline, read to its end, all of whose records convert and all of whose
    writes succeed: [processFile] returns 0 having written one frame per
    complete line, plus one for the last span when it is not empty; the
    zero-byte read at the end of the stream adds no frame. *)
Theorem processFile_frame_per_line lines last payloads out b :
  (forall o d, wfault o d = None) ->
  Forall (fun l => ~ In newline l) lines ->
  ~ In newline last ->
  Forall2 (converts jsonDecode msgpackEncode) (records lines last) payloads ->
  processFile (mkState (mkReader (text lines last) EOF) out b)
  = Some (Done 0, mkState (mkReader [] EOF) (out ++ concat (map frame payloads)) [])
  /\ length payloads
     = (length lines + match last with [] => 0 | _ :: _ => 1 end)%nat.
Proof.
  intros Hw Hl Hlast Hc. split.
  - unfold Json2Msgpack.processFile.
    cbn [Json2Msgpack.input Json2Msgpack.output pending].
    apply loop_text; try assumption. lia.
  - rewrite <- (Forall2_length Hc). unfold records.
    rewrite length_app, length_map. now destruct last.
Qed.



End EncodeProperties.

(** *** Concrete runs of the encode direction *)

Lemma jsonToMsgp_oversize_witness :
  fst (Json2Msgpack.jsonToMsgp (list byte) passDecode passEncode noFault
         [Byte.x7b; Byte.x7d; Byte.x0a] 1
         (Json2Msgpack.mkState (mkReader [] EOF) [] []))
  <> Panicked (TooLongAt 1 3).
Proof.
  apply (proj2 (jsonToMsgp_oversize (list byte) passDecode passEncode noFault
                  [Byte.x7b; Byte.x7d; Byte.x0a] 1
                  (Json2Msgpack.mkState (mkReader [] EOF) [] [])
                  [Byte.x7b; Byte.x7d; Byte.x0a] [Byte.x7b; Byte.x7d; Byte.x0a]
                  eq_refl eq_refl)).
  cbn. lia.
Defined.


(** Two records, the second without a final newline: two frames. *)
Lemma processFile_frame_per_line_witness :
  Json2Msgpack.processFile (list byte) passDecode passEncode noFault
    (Json2Msgpack.mkState
       (mkReader [Byte.x7b; Byte.x7d; Byte.x0a; Byte.x5b; Byte.x5d] EOF) [] [])
  = Some (Done 0,
          Json2Msgpack.mkState (mkReader [] EOF)
            [Byte.xc4; Byte.x03; Byte.x7b; Byte.x7d; Byte.x0a;
             Byte.xc4; Byte.x02; Byte.x5b; Byte.x5d] []).
Proof.
  refine (proj1 (processFile_frame_per_line (list byte) passDecode passEncode noFault
                   [[Byte.x7b; Byte.x7d]] [Byte.x5b; Byte.x5d]
                   [[Byte.x7b; Byte.x7d; Byte.x0a]; [Byte.x5b; Byte.x5d]]
                   [] [] _ _ _ _)).
  - reflexivity.
  - repeat constructor. cbn. intros [H|[H|[]]]; discriminate H.
  - cbn. intros [H|[H|[]]]; discriminate H.
  - repeat constructor; eexists; (split; [reflexivity|split; [reflexivity|cbn; lia]]).
Defined.


(** A read error after one complete line: the line is framed, the status
    is 2. *)
Example processFile_read_error :
  Json2Msgpack.processFile (list byte) passDecode passEncode noFault
    (Json2Msgpack.mkState (mkReader [Byte.x7b; Byte.x7d; Byte.x0a; Byte.x5b] ErrIO) [] [])
  = Some (Done 2,
          Json2Msgpack.mkState (mkReader [] ErrIO)
            [Byte.xc4; Byte.x03; Byte.x7b; Byte.x7d; Byte.x0a] []).
Proof. reflexivity. Qed.

(** An encoder that yields 2^32 bytes: the record is refused and nothing
    reaches the output. *)
Example jsonToMsgp_4GiB_refused :
  let big := repeat Byte.x00 (Z.to_nat (2 ^ 32)) in
  Json2Msgpack.jsonToMsgp (list byte) passDecode (fun _ => (big, None)) noFault
    [Byte.x7b; Byte.x7d; Byte.x0a] 7
    (Json2Msgpack.mkState (mkReader [] EOF) [Byte.xc4; Byte.x00] [])
  = (Panicked (TooLongAt 7 (2 ^ 32)),
     Json2Msgpack.mkState (mkReader [] EOF) [Byte.xc4; Byte.x00] big).
Proof.
  intros big.
  rewrite (jsonToMsgp_encoded (list byte) passDecode (fun _ => (big, None)) noFault
             [Byte.x7b; Byte.x7d; Byte.x0a] 7 _ [Byte.x7b; Byte.x7d; Byte.x0a] big
             eq_refl eq_refl).
  cbn [Json2Msgpack.buf Json2Msgpack.input Json2Msgpack.output app].
  assert (Hlen : Z.of_nat (length big) = 2 ^ 32).
  { unfold big. rewrite repeat_length. apply Z2Nat.id. lia. }
  rewrite Hlen.
  replace (2 ^ 32 >? 4294967295) with true by reflexivity.
  reflexivity.
Qed.

(** ** msgpackParseBench: the decode loop *)

Section DecodeProperties.
Variable decodeSlice : list byte -> option error.

#[local] Abbreviation dloop := (MsgpackParseBench.loop decodeSlice).
#[local] Abbreviation dprocessFile := (MsgpackParseBench.processFile decodeSlice).
#[local] Abbreviation dmain := (MsgpackParseBench.main decodeSlice).
#[local] Abbreviation counted := (MsgpackParseBench.counted decodeSlice).

(** The only status the loop ever returns is 0. *)
Lemma loop_status_zero vals : forall k r,
  dloop vals k = Done r -> MsgpackParseBench.status r = 0.
Proof.
  induction vals as [|v vals IH]; intros k r H; cbn [MsgpackParseBench.loop] in H.
  - now injection H as <-.
  - destruct v as [val|]; [|discriminate].
    destruct (Frame.DecodeMsgpackBinArrayHeader val) as [h|p]; [|discriminate].
    cbn [obind] in H.
    destruct (negb (is_nil (Frame.err h))); [now apply IH in H|].
    destruct (Slice.from val (Frame.headerSize h)) as [tail|p]; [|discriminate].
    cbn [obind] in H.
    destruct (negb (is_nil (decodeSlice tail))); now apply IH in H.
Qed.

(** Frames that are all counted advance [k] by one each. *)
Lemma loop_counted vals : forall k,
  forallb counted vals = true ->
  0 <= k -> k + Z.of_nat (length vals) < 2 ^ 63 ->
  dloop vals k = Done (MsgpackParseBench.mkReport 0 (k + Z.of_nat (length vals))).
Proof.
  induction vals as [|v vals IH]; intros k Hc Hk Hb.
  - cbn. now rewrite Z.add_0_r.
  - cbn [forallb] in Hc. apply andb_prop in Hc as [Hv Hc].
    cbn [MsgpackParseBench.loop]. unfold MsgpackParseBench.counted in Hv.
    destruct v as [val|]; [|discriminate].
    destruct (Frame.DecodeMsgpackBinArrayHeader val) as [h|p]; [|discriminate].
    apply andb_prop in Hv as [He Hv]. cbn [obind]. rewrite He. cbn [negb].
    destruct (Slice.from val (Frame.headerSize h)) as [tail|p]; [|discriminate].
    cbn [obind]. rewrite Hv. cbn [negb].
    cbn [length] in Hb. rewrite int_small by lia.
    rewrite IH by (assumption || lia). f_equal. f_equal. cbn [length]. lia.
Qed.

(** C8, as the code has it. [processFile] never returns a status other than
    0, so [main] exits with 0 whenever the loop ends. In particular, when the
    stream decoder stops after frames that are all counted, the run reports
    their number and exits with 0, whether the decoder stopped at a clean end
    of the stream or on a frame it could not read. *)
Theorem processFile_decode_status (d : MsgpackParseBench.decoder) :
  (forall r, dprocessFile d = Done r ->
             MsgpackParseBench.status r = 0 /\ dmain None d = Exit 0)
  /\ (forallb counted (MsgpackParseBench.values d) = true ->
      Z.of_nat (length (MsgpackParseBench.values d)) < 2 ^ 63 ->
      dprocessFile d
      = Done (MsgpackParseBench.mkReport 0
                (Z.of_nat (length (MsgpackParseBench.values d))))
      /\ exit_code (dmain None d) = 0).
Proof.
  split.
  - intros r Hr.
    assert (Hs : MsgpackParseBench.status r = 0)
      by (apply (loop_status_zero _ _ _ Hr)).
    split; [exact Hs|].
    unfold MsgpackParseBench.main. rewrite Hr. now rewrite Hs.
  - intros Hc Hb.
    assert (Hr : dprocessFile d
                 = Done (MsgpackParseBench.mkReport 0
                           (Z.of_nat (length (MsgpackParseBench.values d))))).
    { unfold MsgpackParseBench.processFile. rewrite loop_counted by (assumption || lia).
      reflexivity. }
    split; [exact Hr|].
    unfold MsgpackParseBench.main. now rewrite Hr.
Qed.

End DecodeProperties.

(** One good frame, then a frame the stream decoder cannot read. *)
Lemma processFile_decode_status_witness :
  let d := MsgpackParseBench.mkDecoder
             [MsgpackParseBench.Bytes [Byte.x81; Byte.xa1; Byte.x61; Byte.x01]]
             ErrCodec in
  MsgpackParseBench.processFile acceptAll d = Done (MsgpackParseBench.mkReport 0 1)
  /\ exit_code (MsgpackParseBench.main acceptAll None d) = 0.
Proof.
  intros d.
  apply (proj2 (processFile_decode_status acceptAll d)).
  - reflexivity.
  - cbn. lia.
Defined.

(** The claim that a malformed frame gives a non-zero outcome fails on a
    stream of one good frame followed by a truncated one: the stream decoder
    stops with an error other than end-of-stream, and the process still exits
    with 0 after reporting one frame. *)
Lemma processFile_decode_status_counterexample :
  let d := MsgpackParseBench.mkDecoder
             [MsgpackParseBench.Bytes [Byte.x81; Byte.xa1; Byte.x61; Byte.x01]]
             ErrCodec in
  MsgpackParseBench.stop d <> EOF
  /\ MsgpackParseBench.processFile acceptAll d = Done (MsgpackParseBench.mkReport 0 1)
  /\ MsgpackParseBench.main acceptAll None d = Exit 0
  /\ ~ (exit_code (MsgpackParseBench.main acceptAll None d) <> 0).
Proof.
  cbv zeta. split; [discriminate|]. split; [reflexivity|]. split; [reflexivity|].
  intros H. now apply H.
Qed.

(** For the record: a frame whose payload the decoder rejects does not stop
    the loop either; it is skipped and the next frame is counted. *)
Example processFile_rejected_payload :
  MsgpackParseBench.processFile
    (fun b => match b with [] => None | _ :: _ => Some ErrCodec end)
    (MsgpackParseBench.mkDecoder
       [MsgpackParseBench.Bytes [Byte.xc1];
        MsgpackParseBench.Bytes [Byte.xc4; Byte.x00]] EOF)
  = Done (MsgpackParseBench.mkReport 0 1).
Proof. reflexivity. Qed.

(** An empty byte array makes the header reader index out of range. *)
Example processFile_empty_frame :
  MsgpackParseBench.processFile acceptAll
    (MsgpackParseBench.mkDecoder [MsgpackParseBench.Bytes []] EOF)
  = Panicked IndexOutOfRange.
Proof. reflexivity. Qed.

(** * Further properties *)

(** ** The frame codec beyond the round trip *)

Lemma be_value_bound2 b1 b0 : 0 <= be_value [b1; b0] < 65536.
Proof.
  pose proof (byte.unsigned_range b1). pose proof (byte.unsigned_range b0).
  unfold be_value. cbn. lia.
Qed.

Lemma be_value_bound4 m3 m2 m1 m0 : 0 <= be_value [m3; m2; m1; m0] < 2 ^ 32.
Proof.
  pose proof (byte.unsigned_range m3). pose proof (byte.unsigned_range m2).
  pose proof (byte.unsigned_range m1). pose proof (byte.unsigned_range m0).
  unfold be_value. cbn. lia.
Qed.

Lemma shape_total t rest : shape (t :: rest).
Proof.
  destruct (Byte.byte_eq_dec t Byte.xc4) as [->|N4].
  { destruct rest as [|b rest]; [|apply shape_bin8].
    apply shape_short. left. split; [reflexivity|cbn; lia]. }
  destruct (Byte.byte_eq_dec t Byte.xc5) as [->|N5].
  { destruct rest as [|b1 [|b0 rest]];
      first [ apply shape_bin16
            | apply shape_short; right; left; split; [reflexivity|cbn; lia] ]. }
  destruct (Byte.byte_eq_dec t Byte.xc6) as [->|N6].
  { destruct rest as [|m3 [|m2 [|m1 [|m0 rest]]]];
      first [ apply shape_bin32
            | apply shape_short; right; right; split; [reflexivity|cbn; lia] ]. }
  now apply shape_other.
Qed.

(** X1. Whatever the reader returns obeys the arithmetic its callers rely
    on: with a nil error the header width is 0, 2, 3 or 5 and never exceeds
    the slice, the payload length is below 2^32 and the total is their sum;
    with an error all three sizes are 0 and the slice is shorter than 5. *)
Theorem Decode_result_shape (p : list byte) (h : Frame.header) :
  Frame.DecodeMsgpackBinArrayHeader p = Done h ->
  (Frame.err h = None ->
   (Frame.headerSize h = 0 \/ Frame.headerSize h = 2 \/ Frame.headerSize h = 3
    \/ Frame.headerSize h = 5)
   /\ Frame.headerSize h <= Z.of_nat (length p)
   /\ 0 <= Frame.payloadSize h < 2 ^ 32
   /\ Frame.totalFrameSize h = Frame.headerSize h + Frame.payloadSize h
   /\ (Frame.headerSize h = 0 -> Frame.payloadSize h = 0))
  /\ (Frame.err h <> None ->
      Frame.err h = Some (ErrTooSmall (Z.of_nat (length p)))
      /\ Frame.headerSize h = 0 /\ Frame.payloadSize h = 0
      /\ Frame.totalFrameSize h = 0 /\ (length p < 5)%nat).
Proof.
  destruct p as [|t0 rest0]; [discriminate|].
  destruct (shape_total t0 rest0) as [b r|b1 b0 r|m3 m2 m1 m0 r|t r Hs|t r H4 H5 H6].
  - rewrite Decode_bin8. intros [= <-]. pose proof (byte.unsigned_range b).
    cbn [Frame.err Frame.headerSize Frame.payloadSize Frame.totalFrameSize length].
    split; [intros _|congruence]. repeat split; lia.
  - rewrite Decode_bin16. intros [= <-]. pose proof (be_value_bound2 b1 b0).
    cbn [Frame.err Frame.headerSize Frame.payloadSize Frame.totalFrameSize length].
    split; [intros _|congruence]. repeat split; lia.
  - rewrite Decode_bin32. intros [= <-]. pose proof (be_value_bound4 m3 m2 m1 m0).
    cbn [Frame.err Frame.headerSize Frame.payloadSize Frame.totalFrameSize length].
    split; [intros _|congruence]. repeat split; lia.
  - rewrite Decode_too_small by exact Hs. intros [= <-].
    cbn [Frame.tooSmall Frame.err Frame.headerSize Frame.payloadSize
         Frame.totalFrameSize].
    split; [discriminate|intros _]. repeat split. lia.
  - rewrite Decode_other_tag by assumption. intros [= <-].
    cbn [Frame.err Frame.headerSize Frame.payloadSize Frame.totalFrameSize length].
    split; [intros _|congruence]. repeat split; lia.
Qed.

Lemma Decode_result_shape_witness :
  Frame.headerSize (Frame.mkHeader 3 256 259 None) <= 4
  /\ Frame.totalFrameSize (Frame.mkHeader 3 256 259 None) = 3 + 256.
Proof.
  destruct (proj1 (Decode_result_shape
                     [Byte.xc5; Byte.x01; Byte.x00; Byte.x07]
                     (Frame.mkHeader 3 256 259 None) eq_refl) eq_refl)
    as (_ & Hle & _ & Ht & _).
  split; [exact Hle|exact Ht].
Defined.

(** X2. The reader looks at the header only: a read that returned a nil
    error returns the same result when any bytes are appended to the slice.
    In particular it never tests that the payload it announces is there. *)
Theorem Decode_extension (p extra : list byte) (h : Frame.header) :
  Frame.DecodeMsgpackBinArrayHeader p = Done h ->
  Frame.err h = None ->
  Frame.DecodeMsgpackBinArrayHeader (p ++ extra) = Done h.
Proof.
  destruct p as [|t0 rest0]; [discriminate|].
  destruct (shape_total t0 rest0) as [b r|b1 b0 r|m3 m2 m1 m0 r|t r Hs|t r H4 H5 H6];
    cbn [app].
  - rewrite !Decode_bin8. auto.
  - rewrite !Decode_bin16. auto.
  - rewrite !Decode_bin32. auto.
  - rewrite Decode_too_small by exact Hs. intros [= <-]. discriminate.
  - rewrite !Decode_other_tag by assumption. auto.
Qed.

Lemma Decode_extension_witness :
  Frame.DecodeMsgpackBinArrayHeader ([Byte.xc4; Byte.x05] ++ [Byte.x81])
  = Done (Frame.mkHeader 2 5 7 None).
Proof.
  exact (Decode_extension [Byte.xc4; Byte.x05] [Byte.x81]
           (Frame.mkHeader 2 5 7 None) eq_refl eq_refl).
Defined.

(** X3. The reader accepts every variant wide enough for a length, not only
    the narrowest one the writer emits: a length below 256 is also read from
    a 3-byte or a 5-byte header, a length below 65536 also from a 5-byte
    header. *)
Theorem Decode_accepts_wider_header (L : Z) (rest : list byte) :
  0 <= L < 2 ^ 32 ->
  Frame.DecodeMsgpackBinArrayHeader ((Byte.xc6 :: be_bytes 4 L) ++ rest)
  = Done (Frame.mkHeader 5 L (5 + L) None)
  /\ (L < 65536 ->
      Frame.DecodeMsgpackBinArrayHeader ((Byte.xc5 :: be_bytes 2 L) ++ rest)
      = Done (Frame.mkHeader 3 L (3 + L) None)
      /\ Frame.binArrayHeader L <> Done (Byte.xc6 :: be_bytes 4 L))
  /\ (L < 256 ->
      Frame.binArrayHeader L <> Done (Byte.xc5 :: be_bytes 2 L)).
Proof.
  intros HL. split; [|split].
  - pose proof (be_value_be_bytes 4 L ltac:(cbn; lia)) as Hv.
    cbn [be_bytes app] in *. rewrite Decode_bin32. now rewrite Hv.
  - intros H16. split.
    + pose proof (be_value_be_bytes 2 L ltac:(cbn; lia)) as Hv.
      cbn [be_bytes app] in *. rewrite Decode_bin16. now rewrite Hv.
    + rewrite binArrayHeader_total by lia. unfold variant_tag.
      destruct (L <? 256); [discriminate|].
      destruct (Z.ltb_spec L 65536); [discriminate|lia].
  - intros H8. rewrite binArrayHeader_total by lia. unfold variant_tag.
    destruct (Z.ltb_spec L 256); [discriminate|lia].
Qed.

Lemma Decode_accepts_wider_header_witness :
  Frame.DecodeMsgpackBinArrayHeader
    [Byte.xc5; Byte.x00; Byte.x07; Byte.x2a]
  = Done (Frame.mkHeader 3 7 10 None).
Proof.
  exact (proj1 (proj1 (proj2 (Decode_accepts_wider_header 7 [Byte.x2a] ltac:(lia)))
                  ltac:(lia))).
Defined.

(** ** A framed stream determines its payloads *)

Lemma app_same_length {A} (P Q r1 r2 : list A) :
  length P = length Q -> P ++ r1 = Q ++ r2 -> P = Q /\ r1 = r2.
Proof.
  revert Q. induction P as [|a P IH]; intros [|b Q] Hl H; try discriminate.
  - now split.
  - cbn in H. injection H as -> H. injection Hl as Hl.
    destruct (IH Q Hl H) as [-> ->]. now split.
Qed.

Lemma frame_injective_one P Q r1 r2 :
  Z.of_nat (length P) <= 4294967295 ->
  Z.of_nat (length Q) <= 4294967295 ->
  frame P ++ r1 = frame Q ++ r2 -> P = Q /\ r1 = r2.
Proof.
  intros HP HQ H. rewrite !frame_eq in H by assumption.
  rewrite <- !app_assoc in H.
  assert (Hlen : Z.of_nat (length P) = Z.of_nat (length Q)).
  { apply (f_equal Frame.DecodeMsgpackBinArrayHeader) in H.
    rewrite !Decode_header in H
      by (change (2 ^ 32 - 1) with 4294967295; lia).
    now injection H. }
  rewrite Hlen in H. apply app_inv_head in H.
  apply app_same_length; [|exact H]. now apply Nat2Z.inj.
Qed.

(** X4. Frames written back to back can be told apart again: two sequences
    of payloads, none oversize, that give the same framed stream are the
    same sequence, whatever bytes the payloads contain. *)
Theorem frames_injective (Ps Qs : list (list byte)) :
  Forall (fun P => Z.of_nat (length P) <= 4294967295) Ps ->
  Forall (fun Q => Z.of_nat (length Q) <= 4294967295) Qs ->
  concat (map frame Ps) = concat (map frame Qs) ->
  Ps = Qs.
Proof.
  revert Qs. induction Ps as [|P Ps IH]; intros [|Q Qs] HPs HQs H.
  - reflexivity.
  - inversion HQs as [|? ? HQ _]; subst. cbn [map concat] in H.
    rewrite frame_eq in H by exact HQ. discriminate H.
  - inversion HPs as [|? ? HP _]; subst. cbn [map concat] in H.
    rewrite frame_eq in H by exact HP. discriminate H.
  - inversion HPs as [|? ? HP HPs']; inversion HQs as [|? ? HQ HQs']; subst.
    cbn [map concat] in H.
    destruct (frame_injective_one P Q _ _ HP HQ H) as [-> Hrest].
    f_equal. now apply IH.
Qed.

Lemma frames_injective_witness :
  [[Byte.xc4; Byte.x0a]; []] = [[Byte.xc4; Byte.x0a]; []].
Proof.
  apply (frames_injective [[Byte.xc4; Byte.x0a]; []] [[Byte.xc4; Byte.x0a]; []]).
  - repeat constructor; cbn; lia.
  - repeat constructor; cbn; lia.
  - reflexivity.
Defined.

(** ** json2msgpack: failures and what reaches the output *)

Lemma int64_small z : - 2 ^ 63 <= z < 2 ^ 63 -> int64 z = z.
Proof.
  intros. unfold int64, wrapS. change (64 - 1) with 63.
  rewrite Z.mod_small; lia.
Qed.

Lemma advance_small n : forall lineNum,
  0 <= lineNum -> lineNum + Z.of_nat n < 2 ^ 63 ->
  advance n lineNum = lineNum + Z.of_nat n.
Proof.
  induction n as [|n IH]; intros lineNum H0 Hb; cbn [advance].
  - lia.
  - rewrite int64_small by lia. rewrite IH by lia. lia.
Qed.

Lemma length_lines_le (lines : list (list byte)) :
  (length lines <= length (concat (map (fun l => l ++ [newline]) lines)))%nat.
Proof.
  induction lines as [|l lines IH]; cbn [map concat length]; [lia|].
  rewrite !length_app. cbn [length]. lia.
Qed.

Section EncodeFailures.
Variable iface : Type.
Variable jsonDecode : list byte -> option iface.
Variable msgpackEncode : iface -> list byte * option error.
Variable wfault : list byte -> list byte -> option nat.

#[local] Abbreviation state := Json2Msgpack.state.
#[local] Abbreviation mkState := Json2Msgpack.mkState.
#[local] Abbreviation input := Json2Msgpack.input.
#[local] Abbreviation output := Json2Msgpack.output.
#[local] Abbreviation buf := Json2Msgpack.buf.
#[local] Abbreviation jsonToMsgp :=
  (Json2Msgpack.jsonToMsgp iface jsonDecode msgpackEncode wfault).
#[local] Abbreviation loop := (Json2Msgpack.loop iface jsonDecode msgpackEncode wfault).
#[local] Abbreviation processFile :=
  (Json2Msgpack.processFile iface jsonDecode msgpackEncode wfault).

Lemma jsonToMsgp_appends js lineNum s :
  exists added, output (snd (jsonToMsgp js lineNum s)) = output s ++ added.
Proof.
  remember (jsonToMsgp js lineNum s) as r eqn:Hr.
  unfold Json2Msgpack.jsonToMsgp, Json2Msgpack.bind, Json2Msgpack.Encode,
    Json2Msgpack.bufLen, Json2Msgpack.throw, Json2Msgpack.ret,
    Json2Msgpack.writeMsgpackBinArrayHeader, Json2Msgpack.bind, Json2Msgpack.lift,
    Json2Msgpack.Write, Json2Msgpack.ioCopy in Hr.
  repeat match type of Hr with
         | context [msgpackEncode ?v] =>
             destruct (msgpackEncode v) as [? ?]; cbv beta iota in Hr
         | context [Frame.binArrayHeader ?l] =>
             destruct (Frame.binArrayHeader l); cbv beta iota in Hr
         | context [wfault ?a ?b] =>
             destruct (wfault a b); cbv beta iota in Hr
         | context [match ?x ++ ?y with _ => _ end] =>
             destruct (x ++ y); cbv beta iota in Hr
         | context [match ?x with _ => _ end] =>
             destruct x eqn:?;
             cbn [is_nil negb Json2Msgpack.buf Json2Msgpack.input
                  Json2Msgpack.output] in Hr;
             cbv beta iota in Hr
         end;
    subst r; cbn [snd Json2Msgpack.output];
    first [ now (exists []; rewrite app_nil_r)
          | now (eexists; reflexivity)
          | now (rewrite <- app_assoc; eexists; reflexivity) ].
Qed.

Lemma loop_appends fuel : forall lineNum s r s',
  loop fuel lineNum s = Some (r, s') ->
  exists added, output s' = output s ++ added.
Proof.
  induction fuel as [|fuel IH]; intros lineNum s r s' H; [discriminate|].
  cbn [Json2Msgpack.loop] in H. unfold Json2Msgpack.readLine in H.
  destruct (ReadBytes (input s) newline) as [[lastLine err] rd].
  set (s1 := mkState rd (output s) (buf s)) in *.
  assert (Hsame : forall o s2, Some (o, s1) = Some (r, s2) ->
                               exists added, output s2 = output s ++ added).
  { intros o s2 [= _ <-]. exists []. now rewrite app_nil_r. }
  destruct (negb (is_nil err) && negb (is_EOF err)); [now apply Hsame in H|].
  destruct (is_EOF err && (Z.of_nat (length lastLine) =? 0));
    [now apply Hsame in H|].
  destruct (jsonToMsgp_appends lastLine lineNum s1) as [added Hadd].
  destruct (jsonToMsgp lastLine lineNum s1) as [[status|p] s2]; cbn [snd] in Hadd.
  2:{ injection H as _ <-. now exists added. }
  destruct (status >? 0); [injection H as _ <-; now exists added|].
  destruct (is_EOF err).
  - injection H as _ <-. now exists added.
  - apply IH in H as [added' H].
    cbn [snd Json2Msgpack.bufReset Json2Msgpack.output] in H.
    rewrite Hadd in H. exists (added ++ added'). now rewrite app_assoc.
Qed.

(** X5. The converter only ever appends to its output: whatever the input,
    the codec and the failures of the output file, and whether the run
    returns or panics, what was on the output before is still there, in
    front of what the run added. *)
Theorem processFile_appends (s : state) (r : outcome Z) (s' : state) :
  processFile s = Some (r, s') ->
  exists added, output s' = output s ++ added.
Proof.
  intros H. unfold Json2Msgpack.processFile in H.
  apply loop_appends in H. exact H.
Qed.

(** X6. A failed write ends the record where it failed. When the write of
    the header fails, the call panics with the header-write error and not
    one payload byte follows the part of the header that was written; when
    the header is written and the write of the payload fails, the call
    panics with the copy error, and the unwritten rest stays in the
    buffer. *)
Theorem jsonToMsgp_write_failure js lineNum s v enc n :
  jsonDecode js = Some v ->
  msgpackEncode v = (enc, None) ->
  let payload := buf s ++ enc in
  let blen := Z.of_nat (length payload) in
  let hdr := variant_tag blen :: be_bytes (field_width blen) blen in
  blen <= 4294967295 ->
  (wfault (output s) hdr = Some n ->
   jsonToMsgp js lineNum s
   = (Panicked (HeaderWriteErrorAt lineNum blen),
      mkState (input s) (output s ++ firstn n hdr) payload))
  /\ (wfault (output s) hdr = None ->
      payload <> [] ->
      wfault (output s ++ hdr) payload = Some n ->
      jsonToMsgp js lineNum s
      = (Panicked (CopyErrorAt lineNum),
         mkState (input s) (output s ++ hdr ++ firstn n payload) (skipn n payload))).
Proof.
  intros Hd He payload blen hdr Hlen.
  rewrite (jsonToMsgp_encoded iface jsonDecode msgpackEncode wfault
             js lineNum s v enc Hd He).
  fold payload. fold blen.
  destruct (Z.gtb_spec blen 4294967295); [lia|].
  assert (H0 : 0 <= blen) by apply Nat2Z.is_nonneg.
  rewrite uint32_small by lia.
  rewrite writeMsgpackBinArrayHeader_run by lia. fold hdr.
  unfold Json2Msgpack.Write.
  cbn [Json2Msgpack.buf Json2Msgpack.input Json2Msgpack.output].
  split.
  - intros Hw. now rewrite Hw.
  - intros Hw Hne Hc. rewrite Hw. unfold Json2Msgpack.ioCopy.
    cbn [Json2Msgpack.buf Json2Msgpack.input Json2Msgpack.output].
    destruct payload as [|b payload'] eqn:Ep; [congruence|].
    rewrite Hc. now rewrite <- app_assoc.
Qed.

(** The loop over a run of complete lines that all convert, on a file that
    takes every write. *)
Lemma loop_prefix good : forall payloads rest e fuel lineNum out,
  (forall o d, wfault o d = None) ->
  Forall (fun l => ~ In newline l) good ->
  Forall2 (converts jsonDecode msgpackEncode)
          (map (fun l => l ++ [newline]) good) payloads ->
  loop (length good + fuel) lineNum
       (mkState (mkReader (concat (map (fun l => l ++ [newline]) good) ++ rest) e)
                out [])
  = loop fuel (advance (length good) lineNum)
         (mkState (mkReader rest e) (out ++ concat (map frame payloads)) []).
Proof.
  induction good as [|l good IH]; intros payloads rest e fuel lineNum out Hw Hl Hc.
  - inversion Hc; subst. cbn. now rewrite app_nil_r.
  - inversion Hl as [|? ? Hl1 Hl2]; subst.
    cbn [map] in Hc.
    inversion Hc as [|js P recs Ps (v & Hd & He & HP) Hrest]; subst.
    cbn [length Nat.add map concat advance].
    rewrite <- !app_assoc. cbn [app].
    cbn [Json2Msgpack.loop]. unfold Json2Msgpack.readLine, ReadBytes.
    cbn [Json2Msgpack.input Json2Msgpack.output Json2Msgpack.buf pending ending].
    rewrite cut_line by assumption.
    cbn [is_nil is_EOF negb andb].
    rewrite (jsonToMsgp_ok iface jsonDecode msgpackEncode wfault _ _ _ v P Hw Hd He)
      by exact HP.
    cbn [Z.gtb Z.compare snd Json2Msgpack.bufReset Json2Msgpack.input
         Json2Msgpack.output Json2Msgpack.buf app].
    rewrite (IH Ps rest e fuel _ _ Hw Hl2 Hrest).
    cbn [map concat]. now rewrite <- app_assoc.
Qed.

(** X7. The run stops at the first line the JSON decoder refuses: it panics
    with the decode error carrying that line's 1-based number, the frames
    of all earlier lines are on the output, and the lines after it are
    never read. *)
Theorem processFile_decode_error_line good bad later last e payloads out b :
  (forall o d, wfault o d = None) ->
  Forall (fun l => ~ In newline l) good ->
  ~ In newline bad ->
  Forall2 (converts jsonDecode msgpackEncode)
          (map (fun l => l ++ [newline]) good) payloads ->
  jsonDecode (bad ++ [newline]) = None ->
  Z.of_nat (length good) + 1 < 2 ^ 63 ->
  processFile (mkState (mkReader (text (good ++ bad :: later) last) e) out b)
  = Some (Panicked (DecodeErrorAt (Z.of_nat (length good) + 1)),
          mkState (mkReader (text later last) e)
                  (out ++ concat (map frame payloads)) []).
Proof.
  intros Hw Hl Hbad Hc Hd Hb.
  unfold Json2Msgpack.processFile.
  cbn [Json2Msgpack.input Json2Msgpack.output pending].
  assert (Htext : text (good ++ bad :: later) last
                  = concat (map (fun l => l ++ [newline]) good)
                    ++ bad ++ newline :: text later last).
  { unfold text. rewrite map_app, concat_app. cbn [map concat].
    now rewrite <- !app_assoc. }
  rewrite Htext.
  pose proof (length_lines_le good) as Hle.
  set (data := concat (map (fun l => l ++ [newline]) good)
               ++ bad ++ newline :: text later last).
  assert (Hf : (S (length data) = length good + S (length data - length good))%nat).
  { unfold data. rewrite length_app. lia. }
  rewrite Hf. unfold data.
  rewrite (loop_prefix good payloads _ e _ 1 out Hw Hl Hc).
  rewrite advance_small by lia.
  cbn [Json2Msgpack.loop]. unfold Json2Msgpack.readLine, ReadBytes.
  cbn [Json2Msgpack.input Json2Msgpack.output Json2Msgpack.buf pending ending].
  rewrite cut_line by assumption.
  cbn [is_nil is_EOF negb andb].
  unfold Json2Msgpack.jsonToMsgp. rewrite Hd. unfold Json2Msgpack.throw.
  now rewrite (Z.add_comm 1).
Qed.

(** X8. When the input ends with a read error other than end-of-stream,
    the run returns 2 with the frames of the complete lines on the output;
    the bytes that came after the last newline are dropped without being
    handed to the codec. *)
Theorem processFile_read_error_drops_partial lines last e payloads out b :
  e <> EOF ->
  (forall o d, wfault o d = None) ->
  Forall (fun l => ~ In newline l) lines ->
  ~ In newline last ->
  Forall2 (converts jsonDecode msgpackEncode)
          (map (fun l => l ++ [newline]) lines) payloads ->
  processFile (mkState (mkReader (text lines last) e) out b)
  = Some (Done 2,
          mkState (mkReader [] e) (out ++ concat (map frame payloads)) []).
Proof.
  intros He Hw Hl Hlast Hc.
  unfold Json2Msgpack.processFile.
  cbn [Json2Msgpack.input Json2Msgpack.output pending].
  pose proof (length_lines_le lines) as Hle.
  unfold text.
  set (data := concat (map (fun l => l ++ [newline]) lines) ++ last).
  assert (Hf : (S (length data) = length lines + S (length data - length lines))%nat).
  { unfold data. rewrite length_app. lia. }
  rewrite Hf. unfold data.
  rewrite (loop_prefix lines payloads last e _ 1 out Hw Hl Hc).
  cbn [Json2Msgpack.loop]. unfold Json2Msgpack.readLine, ReadBytes.
  cbn [Json2Msgpack.input Json2Msgpack.output Json2Msgpack.buf pending ending].
  rewrite cut_none by assumption.
  destruct e; try congruence; reflexivity.
Qed.

End EncodeFailures.

(** *** Concrete runs with failures *)

Lemma processFile_appends_witness :
  exists added,
    [Byte.xff; Byte.xc4; Byte.x03; Byte.x7b; Byte.x7d; Byte.x0a]
    = [Byte.xff] ++ added.
Proof.
  exact (processFile_appends (list byte) passDecode passEncode noFault
           (Json2Msgpack.mkState
              (mkReader [Byte.x7b; Byte.x7d; Byte.x0a; Byte.x5b] ErrIO) [Byte.xff] [])
           (Done 2)
           (Json2Msgpack.mkState (mkReader [] ErrIO)
              [Byte.xff; Byte.xc4; Byte.x03; Byte.x7b; Byte.x7d; Byte.x0a] [])
           eq_refl).
Defined.

(** A file with room for one byte: the tag is written, the rest is not. *)
Lemma jsonToMsgp_write_failure_witness :
  Json2Msgpack.jsonToMsgp (list byte) passDecode passEncode (fullAt 1)
    [Byte.x7b; Byte.x7d; Byte.x0a] 1
    (Json2Msgpack.mkState (mkReader [] EOF) [] [])
  = (Panicked (HeaderWriteErrorAt 1 3),
     Json2Msgpack.mkState (mkReader [] EOF) [Byte.xc4]
       [Byte.x7b; Byte.x7d; Byte.x0a]).
Proof.
  refine (proj1 (jsonToMsgp_write_failure (list byte) passDecode passEncode (fullAt 1)
                   [Byte.x7b; Byte.x7d; Byte.x0a] 1
                   (Json2Msgpack.mkState (mkReader [] EOF) [] [])
                   [Byte.x7b; Byte.x7d; Byte.x0a] [Byte.x7b; Byte.x7d; Byte.x0a]
                   1%nat eq_refl eq_refl _) eq_refl).
  cbn. lia.
Defined.

(** Three lines, the second an array: the run stops at line 2. *)
Lemma processFile_decode_error_line_witness :
  Json2Msgpack.processFile (list byte) objectsOnly passEncode noFault
    (Json2Msgpack.mkState
       (mkReader [Byte.x7b; Byte.x7d; Byte.x0a; Byte.x5b; Byte.x5d; Byte.x0a;
                  Byte.x7b; Byte.x7d; Byte.x0a] EOF) [] [])
  = Some (Panicked (DecodeErrorAt 2),
          Json2Msgpack.mkState (mkReader [Byte.x7b; Byte.x7d; Byte.x0a] EOF)
            [Byte.xc4; Byte.x03; Byte.x7b; Byte.x7d; Byte.x0a] []).
Proof.
  refine (processFile_decode_error_line (list byte) objectsOnly passEncode noFault
            [[Byte.x7b; Byte.x7d]] [Byte.x5b; Byte.x5d] [[Byte.x7b; Byte.x7d]] []
            EOF [[Byte.x7b; Byte.x7d; Byte.x0a]] [] [] _ _ _ _ _ _).
  - reflexivity.
  - repeat constructor. cbn. intros [H|[H|[]]]; discriminate H.
  - cbn. intros [H|[H|[]]]; discriminate H.
  - repeat constructor; eexists; (split; [reflexivity|split; [reflexivity|cbn; lia]]).
  - reflexivity.
  - cbn. lia.
Defined.

Lemma processFile_read_error_drops_partial_witness :
  Json2Msgpack.processFile (list byte) passDecode passEncode noFault
    (Json2Msgpack.mkState
       (mkReader [Byte.x7b; Byte.x7d; Byte.x0a; Byte.x5b] ErrIO) [] [])
  = Some (Done 2,
          Json2Msgpack.mkState (mkReader [] ErrIO)
            [Byte.xc4; Byte.x03; Byte.x7b; Byte.x7d; Byte.x0a] []).
Proof.
  refine (processFile_read_error_drops_partial (list byte) passDecode passEncode
            noFault [[Byte.x7b; Byte.x7d]] [Byte.x5b] ErrIO
            [[Byte.x7b; Byte.x7d; Byte.x0a]] [] [] _ _ _ _ _).
  - discriminate.
  - reflexivity.
  - repeat constructor. cbn. intros [H|[H|[]]]; discriminate H.
  - cbn. intros [H|[]]; discriminate H.
  - repeat constructor; eexists; (split; [reflexivity|split; [reflexivity|cbn; lia]]).
Defined.

(** ** msgpackParseBench: what the loop counts and when it panics *)

Lemma Decode_nonempty t rest :
  exists h,
    Frame.DecodeMsgpackBinArrayHeader (t :: rest) = Done h
    /\ 0 <= Frame.headerSize h <= Z.of_nat (length (t :: rest)).
Proof.
  destruct (shape_total t rest) as [b r|b1 b0 r|m3 m2 m1 m0 r|t' r Hs|t' r H4 H5 H6].
  - eexists. split; [apply Decode_bin8|]. cbn [Frame.headerSize length]. lia.
  - eexists. split; [apply Decode_bin16|]. cbn [Frame.headerSize length]. lia.
  - eexists. split; [apply Decode_bin32|]. cbn [Frame.headerSize length]. lia.
  - eexists. split; [now apply Decode_too_small|].
    cbn [Frame.tooSmall Frame.headerSize]. lia.
  - eexists. split; [now apply Decode_other_tag|]. cbn [Frame.headerSize]. lia.
Qed.

Lemma from_fits val lo :
  0 <= lo <= Z.of_nat (length val) ->
  Slice.from val lo = Done (skipn (Z.to_nat lo) val).
Proof.
  intros [H0 H1]. unfold Slice.from.
  destruct (Z.leb_spec 0 lo); [|lia].
  destruct (Z.leb_spec lo (Z.of_nat (length val))); [reflexivity|lia].
Qed.

Section DecodeCounts.
Variable decodeSlice : list byte -> option error.

#[local] Abbreviation dloop := (MsgpackParseBench.loop decodeSlice).
#[local] Abbreviation dprocessFile := (MsgpackParseBench.processFile decodeSlice).
#[local] Abbreviation counted := (MsgpackParseBench.counted decodeSlice).

Lemma loop_panics vals : forall k p,
  dloop vals k = Panicked p ->
  (p = UnexpectedType /\ In MsgpackParseBench.Other vals)
  \/ (p = IndexOutOfRange /\ In (MsgpackParseBench.Bytes []) vals).
Proof.
  induction vals as [|v vals IH]; intros k p H; [discriminate|].
  assert (Hnext : forall k', dloop vals k' = Panicked p ->
            (p = UnexpectedType /\ In MsgpackParseBench.Other (v :: vals))
            \/ (p = IndexOutOfRange /\ In (MsgpackParseBench.Bytes []) (v :: vals))).
  { intros k' Hk. destruct (IH k' p Hk) as [[-> Hin]|[-> Hin]];
      [left|right]; (split; [reflexivity|now right]). }
  cbn [MsgpackParseBench.loop] in H.
  destruct v as [[|t rest]|].
  - cbn in H. injection H as <-. right. split; [reflexivity|now left].
  - destruct (Decode_nonempty t rest) as (h & Hh & Hfit).
    rewrite Hh in H. cbn [obind] in H.
    destruct (negb (is_nil (Frame.err h))); [now apply Hnext in H|].
    rewrite from_fits in H by exact Hfit. cbn [obind] in H.
    destruct (negb (is_nil (decodeSlice _))); now apply Hnext in H.
  - injection H as <-. left. split; [reflexivity|now left].
Qed.

(** X9. The decode run can panic in two ways only: on a decoded value that
    is not a byte array, and on an empty byte array, where the header reader
    indexes out of range. The slice [val[headerSz:]] is always in bounds. *)
Theorem processFile_decode_panics (d : MsgpackParseBench.decoder) (p : panic) :
  dprocessFile d = Panicked p ->
  (p = UnexpectedType /\ In MsgpackParseBench.Other (MsgpackParseBench.values d))
  \/ (p = IndexOutOfRange
      /\ In (MsgpackParseBench.Bytes []) (MsgpackParseBench.values d)).
Proof.
  intros H. unfold MsgpackParseBench.processFile in H.
  now apply loop_panics in H.
Qed.




End DecodeCounts.

Lemma processFile_decode_panics_witness :
  (UnexpectedType = UnexpectedType
   /\ In MsgpackParseBench.Other
         [MsgpackParseBench.Bytes [Byte.x81]; MsgpackParseBench.Other])
  \/ (UnexpectedType = IndexOutOfRange
      /\ In (MsgpackParseBench.Bytes [])
            [MsgpackParseBench.Bytes [Byte.x81]; MsgpackParseBench.Other]).
Proof.
  exact (processFile_decode_panics acceptAll
           (MsgpackParseBench.mkDecoder
              [MsgpackParseBench.Bytes [Byte.x81]; MsgpackParseBench.Other] EOF)
           UnexpectedType eq_refl).
Defined.


(** ** jsonParseBench: the number of lines it reports *)

Section JsonBenchCounts.
Variable iface : Type.
Variable decode : list byte -> option iface.

#[local] Abbreviation jloop := (JsonParseBench.loop iface decode).

Lemma jloop_prefix good : forall rest e fuel lineNum,
  Forall (fun l => ~ In newline l) good ->
  Forall (fun l => decode (l ++ [newline]) <> None) good ->
  jloop (length good + fuel) lineNum
        (mkReader (concat (map (fun l => l ++ [newline]) good) ++ rest) e) []
  = jloop fuel (advance (length good) lineNum) (mkReader rest e) [].
Proof.
  induction good as [|l good IH]; intros rest e fuel lineNum Hl Hd; [reflexivity|].
  inversion Hl as [|? ? Hl1 Hl2]; inversion Hd as [|? ? Hd1 Hd2]; subst.
  cbn [length Nat.add map concat advance].
  rewrite <- !app_assoc. cbn [app].
  cbn [JsonParseBench.loop]. unfold ReadBytes. cbn [pending ending].
  rewrite cut_line by assumption.
  cbn [is_nil is_EOF negb andb]. unfold JsonParseBench.jsonDecode.
  destruct (decode (l ++ [newline])); [|congruence].
  cbn [Z.gtb Z.compare]. now apply IH.
Qed.

(** X11. On an input read to its end whose lines all decode, the number
    jsonParseBench prints is the number of lines that end with a newline: a
    last line without one is decoded like the others but is not counted,
    because the loop leaves before [lineNum += 1]. *)
Theorem processFile_counts_terminated_lines lines last :
  Forall (fun l => ~ In newline l) lines ->
  ~ In newline last ->
  Forall (fun l => decode (l ++ [newline]) <> None) lines ->
  (last <> [] -> decode last <> None) ->
  Z.of_nat (length lines) + 1 < 2 ^ 63 ->
  JsonParseBench.processFile iface decode (mkReader (text lines last) EOF)
  = Some (Done (JsonParseBench.mkReport 0 (Some (Z.of_nat (length lines)))),
          mkReader [] EOF).
Proof.
  intros Hl Hlast Hd Hdl Hb.
  unfold JsonParseBench.processFile. cbn [pending].
  pose proof (length_lines_le lines) as Hle.
  unfold text.
  set (data := concat (map (fun l => l ++ [newline]) lines) ++ last).
  assert (Hf : (S (length data) = length lines + S (length data - length lines))%nat).
  { unfold data. rewrite length_app. lia. }
  rewrite Hf. unfold data.
  rewrite (jloop_prefix lines last EOF _ 1 Hl Hd).
  rewrite advance_small by lia.
  cbn [JsonParseBench.loop]. unfold ReadBytes. cbn [pending ending].
  rewrite cut_none by assumption.
  cbn [is_nil is_EOF negb andb].
  assert (Hn : int64 (1 + Z.of_nat (length lines) - 1) = Z.of_nat (length lines))
    by (rewrite int64_small by lia; lia).
  destruct last as [|b last].
  - cbn [length Z.of_nat Z.eqb]. now rewrite Hn.
  - replace (Z.of_nat (length (b :: last)) =? 0) with false
      by (symmetry; apply Z.eqb_neq; cbn [length]; lia).
    unfold JsonParseBench.jsonDecode.
    destruct (decode (b :: last)); [|now destruct Hdl].
    cbn [Z.gtb Z.compare]. now rewrite Hn.
Qed.

End JsonBenchCounts.

(** Two lines, the second without a newline: both are decoded, one is
    counted. *)
Lemma processFile_counts_terminated_lines_witness :
  JsonParseBench.processFile (list byte) passDecode
    (mkReader [Byte.x7b; Byte.x7d; Byte.x0a; Byte.x5b; Byte.x5d] EOF)
  = Some (Done (JsonParseBench.mkReport 0 (Some 1)), mkReader [] EOF).
Proof.
  refine (processFile_counts_terminated_lines (list byte) passDecode
            [[Byte.x7b; Byte.x7d]] [Byte.x5b; Byte.x5d] _ _ _ _ _).
  - repeat constructor. cbn. intros [H|[H|[]]]; discriminate H.
  - cbn. intros [H|[H|[]]]; discriminate H.
  - repeat constructor. discriminate.
  - discriminate.
  - cbn. lia.
Defined.

(** ** Configuration *)

Section ConfigProperties.
Variable Stat : String.string -> option Config.FileInfo.
Variable openOk : String.string -> bool.
Variable createOk : String.string -> bool.

#[local] Abbreviation FileExists := (Config.FileExists Stat).
#[local] Abbreviation DirExists := (Config.DirExists Stat).
#[local] Abbreviation ValidateConfig := (Config.ValidateConfig Stat openOk createOk).

(** Split a run of [ValidateConfig] into all its cases. *)
Ltac validate_cases H :=
  unfold Config.ValidateConfig, Config.validateInput, Config.validateOutput in H;
  repeat match type of H with
         | context [if ?b then _ else _] =>
             let E := fresh "E" in
             destruct b eqn:E;
             cbn [Config.InputPath Config.OutputPath Config.Input Config.Output
                  negb app] in H
         end.

(** X12. An input path that names nothing, or names a directory, is refused
    with the does-not-exist error before any file is opened or created, and
    the configuration is left as it was. *)
Theorem ValidateConfig_missing_input (c : Config.JsonMsgpConfig) :
  Config.nonEmpty (Config.InputPath c) = true ->
  (Stat (Config.InputPath c) = None
   \/ Stat (Config.InputPath c) = Some (Config.mkFileInfo true)) ->
  ValidateConfig c = (c, Some (Config.NotExist (Config.InputPath c)), []).
Proof.
  intros Hne Hs.
  unfold Config.ValidateConfig, Config.validateInput. rewrite Hne.
  unfold Config.FileExists.
  destruct Hs as [-> | ->]; reflexivity.
Qed.

(** X13. [ValidateConfig] never creates over a file that is there: the only
    path it hands to [os.Create] is the output path it was given, and only
    when that path is not empty and does not name an existing regular file.
    When the output path does name one, the call returns the already-exists
    error and leaves the output unset. *)
Theorem ValidateConfig_no_overwrite (c c' : Config.JsonMsgpConfig)
  (e : option Config.cfgError) (calls : list Config.oscall) :
  ValidateConfig c = (c', e, calls) ->
  (forall name, In (Config.CallCreate name) calls ->
                name = Config.OutputPath c
                /\ Config.nonEmpty name = true
                /\ FileExists name = false)
  /\ (Config.nonEmpty (Config.OutputPath c) = true ->
      FileExists (Config.OutputPath c) = true ->
      e <> None /\ Config.Output c' = Config.Output c
      /\ ~ In (Config.CallCreate (Config.OutputPath c)) calls).
Proof.
  intros H. validate_cases H; injection H as <- <- <-;
    cbn [Config.InputPath Config.OutputPath Config.Input Config.Output];
    (split;
     [ intros name Hin; cbn in Hin;
       repeat match goal with
              | Hin : _ \/ _ |- _ => destruct Hin as [Hin|Hin]
              | Hin : False |- _ => destruct Hin
              | Hin : Config.CallOpenFile _ = Config.CallCreate _ |- _ =>
                  discriminate Hin
              | Hin : Config.CallCreate _ = Config.CallCreate _ |- _ =>
                  injection Hin as <-
              end;
       auto
     | intros Hne Hex;
       try congruence;
       (split; [discriminate|split; [reflexivity|]]);
       cbn; intros Hin;
       repeat match goal with
              | Hin : _ \/ _ |- _ => destruct Hin as [Hin|Hin]
              | Hin : False |- _ => destruct Hin
              | Hin : Config.CallOpenFile _ = Config.CallCreate _ |- _ =>
                  discriminate Hin
              end ]).
Qed.

(** X14. After [ValidateConfig] has returned nil both streams are set and
    neither path is empty any more, an empty path having been replaced by
    "(stdin)" or "(stdout)" together with the standard stream; so [main]
    defers a [Close] for both, the standard streams included. *)
Theorem ValidateConfig_success (c c' : Config.JsonMsgpConfig)
  (calls : list Config.oscall) :
  ValidateConfig c = (c', None, calls) ->
  Config.Input c' <> None /\ Config.Output c' <> None
  /\ Config.deferred c' = [Config.Input c'; Config.Output c']
  /\ (Config.nonEmpty (Config.InputPath c) = false ->
      Config.Input c' = Some Config.Stdin
      /\ Config.InputPath c' = "(stdin)"%string)
  /\ (Config.nonEmpty (Config.OutputPath c) = false ->
      Config.Output c' = Some Config.Stdout
      /\ Config.OutputPath c' = "(stdout)"%string)
  /\ (Config.nonEmpty (Config.InputPath c) = true ->
      Config.Input c' = Some (Config.Opened (Config.InputPath c))
      /\ Config.InputPath c' = Config.InputPath c).
Proof.
  intros H. validate_cases H; try discriminate H; injection H as <- <-;
    unfold Config.deferred;
    cbn [Config.InputPath Config.OutputPath Config.Input Config.Output];
    repeat match goal with
           | E : Config.nonEmpty _ = _ |- _ => rewrite E
           end;
    repeat split; try discriminate; try congruence; try reflexivity.
Qed.

End ConfigProperties.

(** *** Concrete configurations *)

(** The input path names a directory. *)
Lemma ValidateConfig_missing_input_witness :
  Config.ValidateConfig statDemo (fun _ => true) (fun _ => true)
    (Config.mkConfig "data"%string "new.msgp"%string None None)
  = (Config.mkConfig "data"%string "new.msgp"%string None None,
     Some (Config.NotExist "data"%string), []).
Proof.
  apply (ValidateConfig_missing_input statDemo (fun _ => true) (fun _ => true)
           (Config.mkConfig "data"%string "new.msgp"%string None None)).
  - reflexivity.
  - right. reflexivity.
Defined.

(** The output path names an existing file: the input has been opened by
    then, nothing is created. *)
Lemma ValidateConfig_no_overwrite_witness :
  Some (Config.AlreadyExists "old.msgp"%string) <> None
  /\ @None Config.file = None
  /\ ~ In (Config.CallCreate "old.msgp"%string)
          [Config.CallOpenFile "in.json"%string].
Proof.
  exact (proj2 (ValidateConfig_no_overwrite statDemo (fun _ => true) (fun _ => true)
                  (Config.mkConfig "in.json"%string "old.msgp"%string None None)
                  (Config.mkConfig "in.json"%string "old.msgp"%string
                     (Some (Config.Opened "in.json"%string)) None)
                  (Some (Config.AlreadyExists "old.msgp"%string))
                  [Config.CallOpenFile "in.json"%string]
                  eq_refl) eq_refl eq_refl).
Defined.

(** No path given: standard input and output, both with a deferred
    [Close]. *)
Lemma ValidateConfig_success_witness :
  Config.deferred
    (Config.mkConfig "(stdin)"%string "(stdout)"%string
       (Some Config.Stdin) (Some Config.Stdout))
  = [Some Config.Stdin; Some Config.Stdout].
Proof.
  exact (proj1 (proj2 (proj2
           (ValidateConfig_success statDemo (fun _ => true) (fun _ => true)
              (Config.mkConfig ""%string ""%string None None)
              (Config.mkConfig "(stdin)"%string "(stdout)"%string
                 (Some Config.Stdin) (Some Config.Stdout))
              [] eq_refl)))).
Defined.
